(** * StyleGAN2 generator building blocks: a shallow embedding

    This development models [project/stylegan2_network.py]: the dense
    projection layer ([FullyConnectedLayer]), the conditional mapping network
    ([MappingNetwork]), the per-pixel noise injector ([NoiseInjection]) and the
    style-modulated convolution ([ModulatedConv2d]).

    Conventions.
    - A tensor is a shape together with its elements in row-major (contiguous)
      order, so that [view], [reshape] and [unsqueeze] only rewrite the shape.
    - Tensor elements live in an abstract carrier ([Scalar]); statements that
      need algebra are made at the instance of the real numbers.
    - Python exceptions are values of [exn]; a call that may raise returns a
      [result].
    - The random generator is a tape of standard-normal draws and a cursor.
    - Python scalar floats that the code computes with ([1 / self.up]) are
      IEEE binary64 values ([SpecFloat]). *)

From Stdlib Require Import String QArith Reals Lra.
From Stdlib Require Import Floats.SpecFloat.
From Stdlib Require Import List Arith ZArith Lia Bool.
Import ListNotations.

Set Implicit Arguments.
Open Scope string_scope.
Open Scope nat_scope.
Open Scope list_scope.

(* ================================================================= *)
(** ** Exceptions and results *)

Inductive exn : Type :=
| ValueError (msg : string)
| RuntimeError (msg : string)
| ZeroDivisionError (msg : string)
| OverflowError (msg : string)
| IndexError (msg : string).

Inductive result (A : Type) : Type :=
| Ok (a : A)
| Raise (e : exn).

Arguments Ok {A} a.
Arguments Raise {A} e.

Definition bind {A B : Type} (c : result A) (k : A -> result B) : result B :=
  match c with
  | Ok a => k a
  | Raise e => Raise e
  end.

Declare Scope result_scope.
Delimit Scope result_scope with result.
Notation "x <- c ;; k" := (bind c (fun x => k))
  (at level 61, c at next level, right associativity) : result_scope.
Notation "' p <- c ;; k" := (bind c (fun x => let p := x in k))
  (at level 61, p pattern, c at next level, right associativity) : result_scope.
Open Scope result_scope.

Definition is_ValueError (e : exn) : bool :=
  match e with ValueError _ => true | _ => false end.

(** [for i in range(n)] with a body that may raise. *)
Fixpoint mapM {A B : Type} (f : A -> result B) (l : list A) : result (list B) :=
  match l with
  | [] => Ok []
  | a :: l' => b <- f a ;; bs <- mapM f l' ;; Ok (b :: bs)
  end.

(* ================================================================= *)
(** ** The carrier of tensor elements *)

Class Scalar (T : Type) : Type := {
  s_zero : T;
  s_one : T;
  s_add : T -> T -> T;
  s_mul : T -> T -> T;
  s_div : T -> T -> T;
  s_neg : T -> T;
  s_sqrt : T -> T;          (* math.sqrt *)
  s_rsqrt : T -> T;         (* torch.rsqrt *)
  s_of_nat : nat -> T;      (* int -> float *)
  s_eps : T                 (* the literal 1e-8 *)
}.

(* ================================================================= *)
(** ** Shapes and row-major indexing *)

Fixpoint numel (s : list nat) : nat :=
  match s with
  | [] => 1
  | d :: s' => d * numel s'
  end.

(** Offset of a multi-index in contiguous storage. *)
Fixpoint offset (s idx : list nat) : nat :=
  match s, idx with
  | _ :: s', i :: idx' => i * numel s' + offset s' idx'
  | _, _ => 0
  end.

(** All multi-indices of a shape, in storage order. *)
Fixpoint indices (s : list nat) : list (list nat) :=
  match s with
  | [] => [[]]
  | d :: s' => flat_map (fun i => map (cons i) (indices s')) (seq 0 d)
  end.

(** Left-pad a shape with ones up to rank [n] (broadcast alignment). *)
Definition pad_shape (n : nat) (s : list nat) : list nat :=
  repeat 1 (n - length s) ++ s.

Definition broadcast_dim (a b : nat) : option nat :=
  if a =? b then Some a
  else if a =? 1 then Some b
  else if b =? 1 then Some a
  else None.

Fixpoint broadcast_dims (s1 s2 : list nat) : result (list nat) :=
  match s1, s2 with
  | [], [] => Ok []
  | a :: s1', b :: s2' =>
      match broadcast_dim a b with
      | Some d => r <- broadcast_dims s1' s2' ;; Ok (d :: r)
      | None =>
          Raise (RuntimeError
                   "The size of tensor a must match the size of tensor b")
      end
  | _, _ =>
      Raise (RuntimeError "The size of tensor a must match the size of tensor b")
  end.

Definition broadcast_shapes (s1 s2 : list nat) : result (list nat) :=
  let n := Nat.max (length s1) (length s2) in
  broadcast_dims (pad_shape n s1) (pad_shape n s2).

(** Index into an operand that is being expanded along its size-1 axes. *)
Fixpoint expand_index (s idx : list nat) : list nat :=
  match s, idx with
  | d :: s', i :: idx' => (if d =? 1 then 0 else i) :: expand_index s' idx'
  | _, _ => []
  end.

(* ================================================================= *)
(** ** Tensors *)

Section TensorOps.
Context {T : Type} `{Scalar T}.

Record tensor : Type := mkTensor { shape : list nat; data : list T }.

Definition wf (t : tensor) : Prop := length (data t) = numel (shape t).

Definition get (t : tensor) (idx : list nat) : T :=
  nth (offset (shape t) idx) (data t) s_zero.

Definition tabulate (s : list nat) (f : list nat -> T) : tensor :=
  mkTensor s (map f (indices s)).

Definition full (s : list nat) (v : T) : tensor :=
  mkTensor s (repeat v (numel s)).

(** [torch.zeros(s)] *)
Definition zeros (s : list nat) : tensor := full s s_zero.

(** [t.view(s)] and [t.reshape(s)] on contiguous storage. *)
Definition view (t : tensor) (s : list nat) : result tensor :=
  if numel s =? length (data t) then Ok (mkTensor s (data t))
  else Raise (RuntimeError "shape is invalid for input of this size").

Definition reshape (t : tensor) (s : list nat) : result tensor := view t s.

(** [t.unsqueeze(dim)] *)
Definition unsqueeze (t : tensor) (dim : nat) : result tensor :=
  if dim <=? length (shape t)
  then Ok (mkTensor (firstn dim (shape t) ++ 1 :: skipn dim (shape t))
                    (data t))
  else Raise (IndexError "Dimension out of range").

(** Python scalar times tensor. *)
Definition scalar_mul (c : T) (t : tensor) : tensor :=
  mkTensor (shape t) (map (s_mul c) (data t)).

(** Tensor plus Python scalar. *)
Definition add_scalar (t : tensor) (c : T) : tensor :=
  mkTensor (shape t) (map (fun v => s_add v c) (data t)).

Definition map_tensor (f : T -> T) (t : tensor) : tensor :=
  mkTensor (shape t) (map f (data t)).

(** [t.pow(2)] *)
Definition pow2 (t : tensor) : tensor := map_tensor (fun v => s_mul v v) t.

(** [torch.rsqrt(t)] *)
Definition rsqrt (t : tensor) : tensor := map_tensor s_rsqrt t.

(** Read operand [t] at result index [idx] of a rank-[n] broadcast. *)
Definition bget (t : tensor) (n : nat) (idx : list nat) : T :=
  let s := pad_shape n (shape t) in
  nth (offset s (expand_index s idx)) (data t) s_zero.

(** Element-wise binary operation with broadcasting. *)
Definition broadcast2 (op : T -> T -> T) (a b : tensor) : result tensor :=
  s <- broadcast_shapes (shape a) (shape b) ;;
  Ok (tabulate s (fun idx => op (bget a (length s) idx) (bget b (length s) idx))).

Definition add (a b : tensor) : result tensor := broadcast2 s_add a b.
Definition mul (a b : tensor) : result tensor := broadcast2 s_mul a b.

(** Left-to-right accumulation, starting from zero. *)
Definition sum_list (l : list T) : T := fold_left s_add l s_zero.

(** [t.sum([2, 3, 4])]: the three reduced axes must exist; on a tensor of
    rank five they are the trailing axes. *)
Definition sum_234 (t : tensor) : result tensor :=
  match shape t with
  | [a; b; c; d; e] =>
      Ok (tabulate [a; b]
            (fun idx => sum_list (map (fun r => get t (idx ++ r))
                                      (indices [c; d; e]))))
  | _ => Raise (IndexError "Dimension out of range")
  end.

(** [F.linear(x, weight, bias)]: [x] of shape (..., in), [weight] of shape (out, in). *)
Definition linear (x w : tensor) (b : option tensor) : result tensor :=
  match shape w, rev (shape x) with
  | [n_out; n_in], last :: lead_rev =>
      if negb (last =? n_in)
      then Raise (RuntimeError "mat1 and mat2 shapes cannot be multiplied")
      else
        let lead := rev lead_rev in
        let y :=
          mkTensor (lead ++ [n_out])
            (flat_map
               (fun r =>
                  map (fun o =>
                         sum_list
                           (map (fun j => s_mul (nth (r * n_in + j) (data x) s_zero)
                                                (nth (o * n_in + j) (data w) s_zero))
                                (seq 0 n_in)))
                      (seq 0 n_out))
               (seq 0 (numel lead))) in
        match b with
        | None => Ok y
        | Some bias => add y bias
        end
  | _, _ => Raise (RuntimeError "mat1 and mat2 shapes cannot be multiplied")
  end.

(** Input value at padded coordinates ([pad] zeros on every side). *)
Definition padded (x : tensor) (pad hh ww b ch y xx : nat) : T :=
  if (pad <=? y) && (y <? hh + pad) && (pad <=? xx) && (xx <? ww + pad)
  then get x [b; ch; y - pad; xx - pad]
  else s_zero.

(** One output element of a grouped cross-correlation: output channel
    [oc] reads the [cg] input channels of its own group. *)
Definition correlate (x w : tensor) (p s groups hh ww o cg kh kw : nat)
           (idx : list nat) : T :=
  match idx with
  | [b; oc; i; j] =>
      let g := oc / (o / groups) in
      sum_list
        (map (fun r =>
                match r with
                | [ci; u; v] =>
                    s_mul (padded x p hh ww b (g * cg + ci) (i * s + u) (j * s + v))
                          (get w [oc; ci; u; v])
                | _ => s_zero
                end)
             (indices [cg; kh; kw]))
  | _ => s_zero
  end.

(** [F.conv2d(x, weight, padding=padding, stride=stride, groups=groups)]
    without bias. *)
Definition conv2d (x w : tensor) (padding stride : Z) (groups : nat)
  : result tensor :=
  match shape x, shape w with
  | [bn; c; hh; ww], [o; cg; kh; kw] =>
      if (stride <=? 0)%Z
      then Raise (RuntimeError "non-positive stride is not supported")
      else if (padding <? 0)%Z
      then Raise (RuntimeError "negative padding is not supported")
      else if groups =? 0
      then Raise (RuntimeError "non-positive groups is not supported")
      else if negb (c =? cg * groups)
      then Raise (RuntimeError "input channels do not match weight and groups")
      else if o <? groups
      then Raise (RuntimeError "weight has fewer output channels than groups")
      else if negb (o mod groups =? 0)
      then Raise (RuntimeError "out_channels must be divisible by groups")
      else
        let p := Z.to_nat padding in
        let s := Z.to_nat stride in
        if (hh + 2 * p <? kh) || (ww + 2 * p <? kw)
        then Raise (RuntimeError "Kernel size can't be greater than actual input size")
        else
          let h_out := (hh + 2 * p - kh) / s + 1 in
          let w_out := (ww + 2 * p - kw) / s + 1 in
          Ok (tabulate [bn; o; h_out; w_out]
                       (correlate x w p s groups hh ww o cg kh kw))
  | _, _ => Raise (RuntimeError "Expected 4D input and 4D weight")
  end.

(** [t[i:i+1]]: sample [i] along the leading axis, keeping that axis. *)
Definition narrow0 (t : tensor) (i : nat) : tensor :=
  match shape t with
  | _ :: s => mkTensor (1 :: s) (firstn (numel s) (skipn (i * numel s) (data t)))
  | [] => t
  end.

(** [t[i]]: sample [i] along the leading axis, dropping that axis. *)
Definition select0 (t : tensor) (i : nat) : tensor :=
  match shape t with
  | _ :: s => mkTensor s (firstn (numel s) (skipn (i * numel s) (data t)))
  | [] => t
  end.

(** [torch.cat(ts, dim=0)] for tensors that agree on the other axes. *)
Definition cat0 (ts : list tensor) : tensor :=
  match ts with
  | [] => mkTensor [0] []
  | t0 :: _ =>
      mkTensor (list_sum (map (fun t => hd 0 (shape t)) ts) :: tl (shape t0))
               (concat (map data ts))
  end.

(* --------------------------------------------------------------- *)
(** *** The random generator *)

Record rng : Type := mkRng { tape : nat -> T; pos : nat }.

(** Draw one value per element of shape [s], pushing each raw draw through
    [f] (the sampler of the requested distribution). *)
Definition draw (f : T -> T) (s : list nat) (g : rng) : tensor * rng :=
  (mkTensor s (map (fun i => f (tape g (pos g + i))) (seq 0 (numel s))),
   mkRng (tape g) (pos g + numel s)).

(** [torch.randn(s)] *)
Definition randn (s : list nat) (g : rng) : tensor * rng :=
  draw (fun v => v) s g.

End TensorOps.

Arguments tensor T : clear implicits.
Arguments rng T : clear implicits.

(* ================================================================= *)
(** ** Python floats: IEEE binary64 *)

Module PyFloat.

Definition of_int (z : Z) : spec_float := binary_normalize 53 1024 z 0 false.

Definition is_zero (f : spec_float) : bool :=
  match f with S754_zero _ => true | _ => false end.

(** [a / b] on floats. *)
Definition truediv (a b : spec_float) : result spec_float :=
  if is_zero b then Raise (ZeroDivisionError "float division by zero")
  else Ok (SFdiv 53 1024 a b).

(** An int as an exact (unrounded) dyadic number. *)
Definition exact_int (z : Z) : spec_float :=
  match z with
  | Z0 => S754_zero false
  | Zpos p => S754_finite false p 0
  | Zneg p => S754_finite true p 0
  end.

(** [a / b] on ints: the exact quotient of the two integers, rounded once
    to the nearest binary64 value (ties to even); a quotient beyond the
    range of binary64 raises. *)
Definition int_truediv (a b : Z) : result spec_float :=
  if (b =? 0)%Z then Raise (ZeroDivisionError "division by zero")
  else match SFdiv 53 1024 (exact_int a) (exact_int b) with
       | S754_infinity _ =>
           Raise (OverflowError "integer division result too large for a float")
       | q => Ok q
       end.

(** [int(f)]: truncation towards zero. *)
Definition to_int (f : spec_float) : result Z :=
  match f with
  | S754_zero _ => Ok 0%Z
  | S754_finite sgn m e =>
      let a := match e with
               | Z0 => Zpos m
               | Zpos _ => Z.shiftl (Zpos m) e
               | Zneg k => Z.shiftr (Zpos m) (Zpos k)
               end in
      Ok (if sgn then (- a)%Z else a)
  | S754_infinity _ => Raise (OverflowError "cannot convert float infinity to integer")
  | S754_nan => Raise (ValueError "cannot convert float NaN to integer")
  end.

End PyFloat.

(* ================================================================= *)
(** ** Library primitives left abstract

    Samplers turn one raw draw of the generator into a sample of the
    requested distribution; activations act element-wise; the normalisation
    and dropout modules are taken as whole-tensor functions. *)

Class Torch (T : Type) `{Scalar T} : Type := {
  xavier_uniform_sample : nat -> nat -> T -> T;   (* fan_in, fan_out *)
  kaiming_uniform_sample : nat -> T -> T;         (* fan_in *)
  orthogonalise : list nat -> list T -> list T;   (* shape, normal draws *)
  uniform_sample : T -> T -> T -> T;              (* low, high *)
  linear_default_sample : nat -> T -> T;          (* nn.Linear's own reset *)
  F_relu : T -> T;
  F_leaky_relu : Q -> T -> T;                     (* negative_slope *)
  F_elu : T -> T;
  F_gelu : T -> T;
  torch_sigmoid : T -> T;
  nn_BatchNorm1d : nat -> tensor T -> result (tensor T);
  nn_LayerNorm : nat -> tensor T -> result (tensor T);
  nn_Dropout : Q -> tensor T -> rng T -> tensor T * rng T
}.

Section Init.
Context {T : Type} `{Torch T}.

(** [nn.init._calculate_fan_in_and_fan_out] *)
Definition calculate_fan_in_and_fan_out (w : tensor T) : result (nat * nat) :=
  match shape w with
  | n_out :: n_in :: rest => Ok (n_in * numel rest, n_out * numel rest)
  | _ => Raise (ValueError
                  "Fan in and fan out can not be computed for tensor with fewer than 2 dimensions")
  end.

(** [nn.init.xavier_uniform_]: the standard deviation is
    [gain * math.sqrt(2.0 / float(fan_in + fan_out))], a Python float
    division, which raises when both fans are zero. *)
Definition xavier_uniform_ (w : tensor T) (g : rng T)
  : result (tensor T * rng T) :=
  '(fan_in, fan_out) <- calculate_fan_in_and_fan_out w ;;
  if fan_in + fan_out =? 0
  then Raise (ZeroDivisionError "float division by zero")
  else Ok (draw (xavier_uniform_sample fan_in fan_out) (shape w) g).

(** [nn.init.kaiming_uniform_]: a tensor with a zero extent is returned
    as it is (with a warning). *)
Definition kaiming_uniform_ (w : tensor T) (g : rng T)
  : result (tensor T * rng T) :=
  if existsb (Nat.eqb 0) (shape w) then Ok (w, g)
  else
    '(fan_in, _) <- calculate_fan_in_and_fan_out w ;;
    Ok (draw (kaiming_uniform_sample fan_in) (shape w) g).

(** [nn.init.orthogonal_]: a tensor without elements is returned as it
    is. *)
Definition orthogonal_ (w : tensor T) (g : rng T)
  : result (tensor T * rng T) :=
  match shape w with
  | _ :: _ :: _ =>
      if numel (shape w) =? 0 then Ok (w, g)
      else
        let '(n, g') := randn (shape w) g in
        Ok (mkTensor (shape w) (orthogonalise (shape w) (data n)), g')
  | _ => Raise (ValueError "Only tensors with 2 or more dimensions are supported")
  end.

Definition uniform_ (w : tensor T) (a b : T) (g : rng T) : tensor T * rng T :=
  draw (uniform_sample a b) (shape w) g.

End Init.

(* ================================================================= *)
(** ** FullyConnectedLayer *)

Module FullyConnectedLayer.
Section Def.
Context {T : Type} `{Torch T}.

Record t : Type := mk {
  in_features : nat;
  out_features : nat;
  activation : string;
  dropout : option Q;          (* nn.Dropout(p) or None *)
  batch_norm : option nat;     (* nn.BatchNorm1d(n) or None *)
  layer_norm : option nat;     (* nn.LayerNorm(n) or None *)
  weight : tensor T;
  bias : option (tensor T);
  act_fn : tensor T -> result (tensor T)
}.

(** [reset_parameters]: acts on [self.weight] and [self.bias] in place. *)
Definition reset_parameters (weight : tensor T) (bias : option (tensor T))
           (weight_init : string) (g : rng T)
  : result (tensor T * option (tensor T) * rng T) :=
  '(w, g1) <-
     (if weight_init =? "xavier" then xavier_uniform_ weight g
      else if weight_init =? "kaiming" then kaiming_uniform_ weight g
      else if weight_init =? "orthogonal" then orthogonal_ weight g
      else Raise (ValueError ("Unsupported weight initialisation: " ++ weight_init)))%string ;;
  match bias with
  | Some b =>
      '(fan_in, _) <- calculate_fan_in_and_fan_out w ;;
      if fan_in =? 0 then Raise (ZeroDivisionError "float division by zero")
      else
        let bound := s_div s_one (s_sqrt (s_of_nat fan_in)) in
        let '(b', g2) := uniform_ b (s_neg bound) bound g1 in
        Ok (w, Some b', g2)
  | None => Ok (w, None, g1)
  end.

(** [get_activation_fn] *)
Definition get_activation_fn (activation : string)
  : result (tensor T -> result (tensor T)) :=
  (if activation =? "relu" then Ok (fun x => Ok (map_tensor F_relu x))
   else if activation =? "leaky_relu"
   then Ok (fun x => Ok (map_tensor (F_leaky_relu (2 # 10)) x))
   else if activation =? "elu" then Ok (fun x => Ok (map_tensor F_elu x))
   else if activation =? "gelu" then Ok (fun x => Ok (map_tensor F_gelu x))
   else if activation =? "swish"
   then Ok (fun x => mul x (map_tensor torch_sigmoid x))
   else if activation =? "linear" then Ok (fun x => Ok x)
   else Raise (ValueError ("Unsupported activation function: " ++ activation)))%string.

(** [__init__] *)
Definition init (in_features out_features : nat) (bias : bool)
           (activation weight_init : string) (dropout : Q)
           (batch_norm layer_norm : bool) (g : rng T)
  : result (t * rng T) :=
  dropout_m <-
    (if Qle_bool dropout 0 then Ok None
     else if Qle_bool dropout 1 then Ok (Some dropout)
     else Raise (ValueError "dropout probability has to be between 0 and 1")) ;;
  let batch_norm_m := if batch_norm then Some out_features else None in
  let layer_norm_m := if layer_norm then Some out_features else None in
  let weight0 := zeros [out_features; in_features] in
  let bias0 := if bias then Some (zeros [out_features]) else None in
  '(w, b, g') <- reset_parameters weight0 bias0 weight_init g ;;
  f <- get_activation_fn activation ;;
  Ok (mk in_features out_features activation dropout_m batch_norm_m
         layer_norm_m w b f, g').

(** [forward] *)
Definition forward (self : t) (x : tensor T) (g : rng T)
  : result (tensor T * rng T) :=
  x <- linear x (weight self) (bias self) ;;
  x <- match batch_norm self with
       | Some n => nn_BatchNorm1d n x
       | None => Ok x
       end ;;
  x <- match layer_norm self with
       | Some n => nn_LayerNorm n x
       | None => Ok x
       end ;;
  x <- act_fn self x ;;
  match dropout self with
  | Some p => Ok (nn_Dropout p x g)
  | None => Ok (x, g)
  end.

End Def.
Arguments t T : clear implicits.
End FullyConnectedLayer.

(* ================================================================= *)
(** ** MappingNetwork *)

Module MappingNetwork.
Section Def.
Context {T : Type} `{Torch T}.

Record t : Type := mk {
  label_embedding : tensor T;                 (* nn.Embedding(label_dim, z_dim) *)
  net : list (FullyConnectedLayer.t T)        (* nn.Sequential(layers) *)
}.

(** The body of [for i in range(num_layers): layers.append(...)]. *)
Fixpoint build_layers (z_dim w_dim : nat) (dropout : Q) (range : list nat)
         (g : rng T) : result (list (FullyConnectedLayer.t T) * rng T) :=
  match range with
  | [] => Ok ([], g)
  | i :: range' =>
      '(layer, g1) <-
         FullyConnectedLayer.init (if i =? 0 then z_dim else w_dim) w_dim
           true "leaky_relu" "kaiming" dropout true false g ;;
      '(layers, g2) <- build_layers z_dim w_dim dropout range' g1 ;;
      Ok (layer :: layers, g2)
  end.

(** [__init__]; [num_layers] is any Python int. *)
Definition init (z_dim w_dim : nat) (num_layers : Z) (label_dim : nat)
           (dropout : Q) (g : rng T) : result (t * rng T) :=
  let '(emb, g1) := randn [label_dim; z_dim] g in
  '(layers, g2) <-
     build_layers z_dim w_dim dropout (seq 0 (Z.to_nat num_layers)) g1 ;;
  Ok (mk emb layers, g2).

(** [nn.Embedding.forward] on a vector of label indices. *)
Definition embedding (table : tensor T) (labels : list nat)
  : result (tensor T) :=
  match shape table with
  | [num; dim] =>
      rows <- mapM (fun l =>
                      if l <? num
                      then Ok (firstn dim (skipn (l * dim) (data table)))
                      else Raise (IndexError "index out of range in self"))
                   labels ;;
      Ok (mkTensor [length labels; dim] (concat rows))
  | _ => Raise (RuntimeError "'weight' must be 2-D")
  end.

(** [nn.Sequential.forward] *)
Fixpoint sequential (layers : list (FullyConnectedLayer.t T)) (x : tensor T)
         (g : rng T) : result (tensor T * rng T) :=
  match layers with
  | [] => Ok (x, g)
  | layer :: layers' =>
      '(y, g1) <- FullyConnectedLayer.forward layer x g ;;
      sequential layers' y g1
  end.

(** [forward] *)
Definition forward (self : t) (z : tensor T) (labels : list nat) (g : rng T)
  : result (tensor T * rng T) :=
  embedded_labels <- embedding (label_embedding self) labels ;;
  z_prime <- add z embedded_labels ;;
  sequential (net self) z_prime g.

End Def.
Arguments t T : clear implicits.
End MappingNetwork.

(* ================================================================= *)
(** ** NoiseInjection *)

Module NoiseInjection.
Section Def.
Context {T : Type} `{Scalar T}.

Record t : Type := mk { weight : tensor T }.

(** [__init__] *)
Definition init (channels : nat) : t := mk (zeros [1; channels; 1; 1]).

(** [forward]; [noise] is [None] or a tensor. *)
Definition forward (self : t) (x : tensor T) (noise : option (tensor T))
           (g : rng T) : result (tensor T * rng T) :=
  '(noise, g') <-
     match noise with
     | None =>
         match shape x with
         | [batch; _; height; width] => Ok (randn [batch; 1; height; width] g)
         | _ => Raise (ValueError "not enough values to unpack (expected 4)")
         end
     | Some n => Ok (n, g)
     end ;;
  scaled <- mul (weight self) noise ;;
  out <- add x scaled ;;
  Ok (out, g').

(** [x + weight * noise] written out element by element, for a feature
    map (N, C, H, W), a scale (1, C, 1, 1) and noise (N, 1, H, W). *)
Definition injected (w x n : tensor T) (bn c hh ww : nat) : tensor T :=
  tabulate [bn; c; hh; ww]
    (fun idx => match idx with
                | [b; ch; i; j] =>
                    s_add (get x [b; ch; i; j])
                          (s_mul (get w [0; ch; 0; 0]) (get n [b; 0; i; j]))
                | _ => s_zero
                end).

End Def.
Arguments t T : clear implicits.
End NoiseInjection.

(* ================================================================= *)
(** ** ModulatedConv2d *)

Module ModulatedConv2d.
Section Def.
Context {T : Type} `{Torch T}.

Record t : Type := mk {
  in_channels : nat;
  out_channels : nat;
  kernel_size : nat;
  demodulate : bool;
  up : Z;
  down : Z;
  padding : Z;
  scale : T;
  weight : tensor T;                       (* (out, in, k, k) *)
  modulation : tensor T;                   (* nn.Linear(style_dim, in, bias=False).weight *)
  noise_injection : NoiseInjection.t T
}.

(** [__init__] *)
Definition init (in_channels out_channels kernel_size style_dim : nat)
           (demodulate : bool) (up down padding : Z) (g : rng T)
  : result (t * rng T) :=
  if in_channels * kernel_size ^ 2 =? 0
  then Raise (ZeroDivisionError "float division by zero")
  else
    let scale := s_div s_one (s_sqrt (s_of_nat (in_channels * kernel_size ^ 2))) in
    let '(w, g1) := randn [out_channels; in_channels; kernel_size; kernel_size] g in
    let '(m, g2) := draw (linear_default_sample style_dim)
                         [in_channels; style_dim] g1 in
    Ok (mk in_channels out_channels kernel_size demodulate up down padding
           scale w m (NoiseInjection.init out_channels), g2).

(** Lines 249-253 of [forward]: style modulation. *)
Definition modulate (self : t) (batch in_channels : nat) (style : tensor T)
  : result (tensor T) :=
  style <- linear style (modulation self) None ;;
  style <- view style [batch; in_channels; 1; 1] ;;
  w <- unsqueeze (weight self) 0 ;;
  s <- unsqueeze style 1 ;;
  mul (scalar_mul (scale self) w) s.

(** Lines 255-260 of [forward]: demodulation. *)
Definition demodulation (self : t) (batch : nat) (weight : tensor T)
  : result (tensor T) :=
  if demodulate self then
    ss <- sum_234 (pow2 weight) ;;
    let demod := rsqrt (add_scalar ss s_eps) in
    d <- view demod [batch; out_channels self; 1; 1; 1] ;;
    mul weight d
  else Ok weight.

(** Lines 268-272 of [forward]. *)
Definition stride_of (self : t) : result Z :=
  if (up self >? 1)%Z then
    stride <- PyFloat.int_truediv 1 (up self) ;;
    r <- PyFloat.truediv (PyFloat.of_int 1) stride ;;
    PyFloat.to_int r
  else Ok (down self).

Definition padding_of (self : t) : Z :=
  if (padding self =? 0)%Z then Z.of_nat (kernel_size self / 2)
  else padding self.

(** Lines 262-280 of [forward]: one grouped convolution for the batch. *)
Definition grouped_conv (self : t) (batch in_channels height width : nat)
           (x weight : tensor T) : result (tensor T) :=
  weight <- view weight [batch * out_channels self; in_channels;
                         kernel_size self; kernel_size self] ;;
  stride <- stride_of self ;;
  let padding := padding_of self in
  x <- reshape x [1; batch * in_channels; height; width] ;;
  out <- conv2d x weight padding stride batch ;;
  view out [batch; out_channels self; nth 2 (shape out) 0; nth 3 (shape out) 0].

(** [forward] *)
Definition forward (self : t) (x style : tensor T) (noise : option (tensor T))
           (g : rng T) : result (tensor T * rng T) :=
  match shape x with
  | [batch; in_channels; height; width] =>
      weight <- modulate self batch in_channels style ;;
      weight <- demodulation self batch weight ;;
      out <- grouped_conv self batch in_channels height width x weight ;;
      NoiseInjection.forward (noise_injection self) out noise g
  | _ => Raise (ValueError "not enough values to unpack (expected 4)")
  end.

(** The per-sample reading of the convolution step: sample [i] of the
    batch convolved on its own with kernel slice [i], results stacked. *)
Definition per_sample_conv (self : t) (batch : nat) (x weight : tensor T)
  : result (tensor T) :=
  stride <- stride_of self ;;
  outs <- mapM (fun i => conv2d (narrow0 x i) (select0 weight i)
                                (padding_of self) stride 1)
               (seq 0 batch) ;;
  Ok (cat0 outs).

(** What [__init__] establishes and a gradient update preserves: the
    shapes of the parameters, a non-zero fan-in and the scale constant. *)
Record constructed (self : t) (style_dim : nat) : Prop := {
  weight_shape :
    shape (weight self)
    = [out_channels self; in_channels self; kernel_size self; kernel_size self];
  weight_wf : wf (weight self);
  modulation_shape : shape (modulation self) = [in_channels self; style_dim];
  noise_shape :
    shape (NoiseInjection.weight (noise_injection self))
    = [1; out_channels self; 1; 1];
  fan_in_nonzero : in_channels self * kernel_size self ^ 2 <> 0;
  scale_value :
    scale self
    = s_div s_one (s_sqrt (s_of_nat (in_channels self * kernel_size self ^ 2)))
}.

(** Entry (n, c) of [self.modulation(style)]. *)
Definition projected_style (self : t) (style : tensor T) (style_dim n c : nat)
  : T :=
  sum_list
    (map (fun j => s_mul (nth (n * style_dim + j) (data style) s_zero)
                         (nth (c * style_dim + j) (data (modulation self)) s_zero))
         (seq 0 style_dim)).

(** Sum of squares of kernel slice (n, o) over the (C_in, k, k) axes. *)
Definition energy (w : tensor T) (n o : nat) : T :=
  match shape w with
  | [_; _; c; kh; kw] =>
      sum_list (map (fun r => s_mul (get w (n :: o :: r)) (get w (n :: o :: r)))
                    (indices [c; kh; kw]))
  | _ => s_zero
  end.

(** The modulated per-sample kernel written out element by element:
    [scale * weight[o, c, u, v] * style[n, c]]. *)
Definition modulated (self : t) (style : tensor T) (style_dim batch : nat)
  : tensor T :=
  tabulate [batch; out_channels self; in_channels self;
            kernel_size self; kernel_size self]
    (fun idx =>
       match idx with
       | [n; o; c; u; v] =>
           s_mul (s_mul (scale self) (get (weight self) [o; c; u; v]))
                 (projected_style self style style_dim n c)
       | _ => s_zero
       end).

(** The demodulated kernel written out element by element: every entry
    of slice (n, o) times [rsqrt(energy + 1e-8)] of that slice. *)
Definition demodulated (w : tensor T) (bn o c kh kw : nat) : tensor T :=
  tabulate [bn; o; c; kh; kw]
    (fun idx =>
       match idx with
       | [n; oc; ci; u; v] =>
           s_mul (get w [n; oc; ci; u; v])
                 (s_rsqrt (s_add (energy w n oc) s_eps))
       | _ => s_zero
       end).

End Def.
Arguments t T : clear implicits.
End ModulatedConv2d.

(* ================================================================= *)
(** ** The real numbers as carrier *)

#[export] Instance R_Scalar : Scalar R := {|
  s_zero := 0%R;
  s_one := 1%R;
  s_add := Rplus;
  s_mul := Rmult;
  s_div := Rdiv;
  s_neg := Ropp;
  s_sqrt := sqrt;
  s_rsqrt := fun x => (/ sqrt x)%R;
  s_of_nat := INR;
  s_eps := (/ 100000000)%R
|}.

(** A degenerate library: samplers return the raw draw, activations are the
    identity, normalisation and dropout return their input.  It serves to
    run the model on concrete inputs; no statement depends on it. *)
#[export] Instance inert_Torch : @Torch R R_Scalar := {|
  xavier_uniform_sample := fun _ _ v => v;
  kaiming_uniform_sample := fun _ v => v;
  orthogonalise := fun _ l => l;
  uniform_sample := fun _ _ v => v;
  linear_default_sample := fun _ v => v;
  F_relu := fun v => v;
  F_leaky_relu := fun _ v => v;
  F_elu := fun v => v;
  F_gelu := fun v => v;
  torch_sigmoid := fun v => v;
  nn_BatchNorm1d := fun _ x => Ok x;
  nn_LayerNorm := fun _ x => Ok x;
  nn_Dropout := fun _ x g => (x, g)
|}.

(* ================================================================= *)
(** ** Concrete inputs *)

Module Examples.

(** A generator whose every draw is 1. *)
Definition ones_tape : rng R := mkRng (fun _ => 1%R) 0.

(** The layer [ModulatedConv2d(1, 1, 1, 1)] built from [ones_tape]. *)
Definition unit_layer : ModulatedConv2d.t R :=
  ModulatedConv2d.mk 1 1 1 true 1 1 0
    (1 / sqrt (INR 1))%R
    (mkTensor [1; 1; 1; 1] [1%R])
    (mkTensor [1; 1] [1%R])
    (NoiseInjection.init 1).

(** A style batch (1, 1) holding zero. *)
Definition zero_style : tensor R := mkTensor [1; 1] [0%R].

(** The scenario layer [ModulatedConv2d(32, 64, 3, 16)] with every
    parameter drawn as 1. *)
Definition scenario_layer : ModulatedConv2d.t R :=
  ModulatedConv2d.mk 32 64 3 true 1 1 0
    (1 / sqrt (INR (32 * 3 ^ 2)))%R
    (full [64; 32; 3; 3] 1%R)
    (full [32; 16] 1%R)
    (NoiseInjection.init 64).

(** [ModulatedConv2d(1, 1, 3, 1, up=2)] with every parameter drawn as 1. *)
Definition upsampling_layer : ModulatedConv2d.t R :=
  ModulatedConv2d.mk 1 1 3 true 2 1 0
    (1 / sqrt (INR (1 * 3 ^ 2)))%R
    (full [1; 1; 3; 3] 1%R)
    (full [1; 1] 1%R)
    (NoiseInjection.init 1).

(** A batch of two one-pixel samples and its two one-entry kernels. *)
Definition pair_input : tensor R := mkTensor [2; 1; 1; 1] [3%R; 4%R].
Definition pair_kernels : tensor R := mkTensor [2; 1; 1; 1; 1] [5%R; 6%R].

(** A style batch (1, 1) holding 2. *)
Definition unit_style : tensor R := mkTensor [1; 1] [2%R].

(** A noise injector with scale 2 on its single channel, a feature map
    (1, 1, 1, 2) and a noise tensor of the same extent. *)
Definition noise_layer : NoiseInjection.t R :=
  NoiseInjection.mk (mkTensor [1; 1; 1; 1] [2%R]).
Definition row_input : tensor R := mkTensor [1; 1; 1; 2] [3%R; 4%R].
Definition row_noise : tensor R := mkTensor [1; 1; 1; 2] [5%R; 6%R].

(** The layer [FullyConnectedLayer(2, 1)] (linear activation, xavier
    initialisation) built from [ones_tape], and a batch of one row. *)
Definition affine_layer : FullyConnectedLayer.t R :=
  FullyConnectedLayer.mk 2 1 "linear" None None None
    (mkTensor [1; 2] [1%R; 1%R]) (Some (mkTensor [1] [1%R])) (fun x => Ok x).
Definition one_row : tensor R := mkTensor [1; 2] [3%R; 4%R].

(** An embedding table with two labels of width 2, and a latent batch. *)
Definition label_table : tensor R := mkTensor [2; 2] [1%R; 2%R; 3%R; 4%R].
Definition latent_pair : tensor R := mkTensor [2; 2] [5%R; 6%R; 7%R; 8%R].
Definition table_network : MappingNetwork.t R := MappingNetwork.mk label_table [].

(** [ModulatedConv2d(1, 1, 1, 1, down=0)] with every parameter drawn as 1. *)
Definition zero_down_layer : ModulatedConv2d.t R :=
  ModulatedConv2d.mk 1 1 1 true 1 0 0
    (1 / sqrt (INR 1))%R
    (mkTensor [1; 1; 1; 1] [1%R])
    (mkTensor [1; 1] [1%R])
    (NoiseInjection.init 1).

(** A feature map (1, 3, 1, 1) with batch size 1 and three channels, and a
    style batch (3, 1) with batch size 3. *)
Definition three_channel_input : tensor R := mkTensor [1; 3; 1; 1] [1%R; 2%R; 3%R].
Definition three_styles : tensor R := mkTensor [3; 1] [1%R; 2%R; 3%R].

End Examples.

(* ================================================================= *)
(** * Properties *)

(** ** The model on small inputs *)

(** [int(1 / (1 / up))] for a few values of [up]; the stride is [down]
    when [up] is at most 1. *)
Example stride_of_examples :
  map (fun u => ModulatedConv2d.stride_of
                  (ModulatedConv2d.mk 1 1 3 true u 1 0 1%R (zeros [1; 1; 3; 3])
                                      (zeros [1; 1]) (NoiseInjection.init 1)))
      [1%Z; 2%Z; 3%Z; 4%Z; 0%Z; (-2)%Z]
  = [Ok 1%Z; Ok 2%Z; Ok 3%Z; Ok 4%Z; Ok 1%Z; Ok 1%Z].
Proof. vm_compute. reflexivity. Qed.

(** The quotient [1 / up] of two ints is rounded once, so beyond 2^53 the
    stride is no longer [up]; past the range of binary64 [int] raises. *)
Example stride_of_large_up :
  map (fun u => ModulatedConv2d.stride_of
                  (ModulatedConv2d.mk 1 1 3 true u 1 0 1%R (zeros [1; 1; 3; 3])
                                      (zeros [1; 1]) (NoiseInjection.init 1)))
      [93%Z; (2 ^ 53 + 1)%Z; (10 ^ 320)%Z; (10 ^ 330)%Z]
  = [Ok 92%Z; Ok (2 ^ 53 + 2)%Z;
     Raise (OverflowError "cannot convert float infinity to integer");
     Raise (ZeroDivisionError "float division by zero")].
Proof. vm_compute. reflexivity. Qed.

(** [FullyConnectedLayer(0, 0, bias=False, activation='tanh')]: the
    default xavier initialisation divides by the sum of the fans (line 67)
    before the activation name is looked at. *)
Example empty_xavier_layer_example :
  FullyConnectedLayer.init (T := R) 0 0 false "tanh" "xavier" 0 false false
    Examples.ones_tape
  = Raise (ZeroDivisionError "float division by zero").
Proof. reflexivity. Qed.

(** A one-pixel input under a 3x3 kernel with padding 1: only the centre
    tap meets the input. *)
Example conv2d_centre_tap :
  conv2d (mkTensor [1; 1; 1; 1] [5%R])
         (mkTensor [1; 1; 3; 3] [1; 2; 3; 4; 7; 6; 7; 8; 9]%R) 1 1 1
  = Ok (mkTensor [1; 1; 1; 1] [35%R]).
Proof. cbv - [Rplus Rmult IZR]. do 3 f_equal. lra. Qed.

Example linear_example :
  linear (mkTensor [1; 2] [1; 2]%R) (mkTensor [2; 2] [3; 4; 5; 6]%R) None
  = Ok (mkTensor [1; 2] [(0 + 1 * 3 + 2 * 4)%R; (0 + 1 * 5 + 2 * 6)%R]).
Proof. reflexivity. Qed.

(** Two one-pixel samples, each under its own one-entry kernel. *)
Example grouped_conv_example :
  ModulatedConv2d.grouped_conv Examples.unit_layer 2 1 1 1
    Examples.pair_input Examples.pair_kernels
  = Ok (mkTensor [2; 1; 1; 1] [(0 + 3 * 5)%R; (0 + 4 * 6)%R]).
Proof. reflexivity. Qed.

Example noise_injection_example :
  NoiseInjection.forward Examples.noise_layer Examples.row_input
    (Some Examples.row_noise) Examples.ones_tape
  = Ok (mkTensor [1; 1; 1; 2] [(3 + 2 * 5)%R; (4 + 2 * 6)%R], Examples.ones_tape).
Proof. reflexivity. Qed.

Example batch_mismatch_example :
  ModulatedConv2d.forward Examples.unit_layer (zeros [2; 1; 1; 1]) (zeros [3; 1])
    None Examples.ones_tape
  = Raise (RuntimeError "shape is invalid for input of this size").
Proof. reflexivity. Qed.

(** ** Indices and storage order *)

Lemma length_indices (s : list nat) : length (indices s) = numel s.
Proof.
  induction s as [|d s IH]; simpl; [reflexivity|].
  rewrite length_flat_map.
  assert (E : forall l : list nat,
             list_sum (map (fun i => length (map (cons i) (indices s))) l)
             = length l * numel s).
  { induction l as [|a l IHl]; simpl; [reflexivity|].
    rewrite IHl, length_map, IH. reflexivity. }
  rewrite E, length_seq. reflexivity.
Qed.

Lemma in_indices_cons (d : nat) (s : list nat) (idx : list nat) :
  In idx (indices (d :: s)) <->
  exists i r, idx = i :: r /\ i < d /\ In r (indices s).
Proof.
  simpl. rewrite in_flat_map. split.
  - intros (i & Hi & Hin). apply in_map_iff in Hin as (r & <- & Hr).
    apply in_seq in Hi. exists i, r. repeat split; [lia | assumption].
  - intros (i & r & -> & Hi & Hr). exists i. split.
    + apply in_seq. lia.
    + apply in_map. assumption.
Qed.

Lemma in_indices_nil (idx : list nat) : In idx (indices []) <-> idx = [].
Proof. simpl. intuition congruence. Qed.

Lemma offset_lt (s idx : list nat) :
  In idx (indices s) -> offset s idx < numel s.
Proof.
  revert idx. induction s as [|d s IH]; intros idx Hin.
  - apply in_indices_nil in Hin. subst. simpl. lia.
  - apply in_indices_cons in Hin as (i & r & -> & Hi & Hr).
    specialize (IH r Hr). simpl. nia.
Qed.

Lemma nth_flat_map_uniform {A B : Type} (f : A -> list B) (m : nat)
      (l : list A) (i j : nat) (a : A) (d : B) :
  (forall x, length (f x) = m) -> i < length l -> j < m ->
  nth (i * m + j) (flat_map f l) d = nth j (f (nth i l a)) d.
Proof.
  intros Hf. revert i. induction l as [|x l IH]; intros i Hi Hj; simpl in *.
  - lia.
  - destruct i as [|i].
    + simpl. rewrite app_nth1; [reflexivity | rewrite Hf; assumption].
    + rewrite app_nth2; rewrite Hf; [|simpl; lia].
      replace (S i * m + j - m) with (i * m + j) by (simpl; lia).
      apply IH; lia.
Qed.

Lemma nth_map_indices {A : Type} (f : list nat -> A) (s idx : list nat) (d : A) :
  In idx (indices s) -> nth (offset s idx) (map f (indices s)) d = f idx.
Proof.
  revert f idx. induction s as [|n s IH]; intros f idx Hin.
  - apply in_indices_nil in Hin. subst. reflexivity.
  - apply in_indices_cons in Hin as (i & r & -> & Hi & Hr).
    simpl. rewrite flat_map_concat_map, concat_map, map_map, <- flat_map_concat_map.
    rewrite nth_flat_map_uniform with (m := numel s) (a := 0).
    + rewrite seq_nth by assumption. simpl. rewrite map_map.
      apply (IH (fun r => f (i :: r))). assumption.
    + intros x. rewrite !length_map. apply length_indices.
    + rewrite length_seq. assumption.
    + apply offset_lt. assumption.
Qed.

Section TensorFacts.
Context {T : Type} `{Scalar T}.

Lemma wf_tabulate (s : list nat) (f : list nat -> T) : wf (tabulate s f).
Proof. unfold wf, tabulate. simpl. rewrite length_map. apply length_indices. Qed.

Lemma get_tabulate (s idx : list nat) (f : list nat -> T) :
  In idx (indices s) -> get (tabulate s f) idx = f idx.
Proof. intros Hin. unfold get, tabulate. simpl. apply nth_map_indices, Hin. Qed.

Lemma view_ok (t : tensor T) (s : list nat) :
  numel s = length (data t) -> view t s = Ok (mkTensor s (data t)).
Proof. intros E. unfold view. apply Nat.eqb_eq in E. rewrite E. reflexivity. Qed.

Lemma view_mismatch (t : tensor T) (s : list nat) :
  numel s <> length (data t) -> exists e, view t s = Raise (RuntimeError e).
Proof.
  intros E. unfold view. apply Nat.eqb_neq in E. rewrite E. eexists. reflexivity.
Qed.

End TensorFacts.

Lemma broadcast_dim_same (n : nat) : broadcast_dim n n = Some n.
Proof. unfold broadcast_dim. rewrite Nat.eqb_refl. reflexivity. Qed.

Lemma broadcast_dim_1_l (n : nat) : broadcast_dim 1 n = Some n.
Proof.
  unfold broadcast_dim. destruct (1 =? n) eqn:E.
  - apply Nat.eqb_eq in E. subst. reflexivity.
  - reflexivity.
Qed.

Lemma broadcast_dim_1_r (n : nat) : broadcast_dim n 1 = Some n.
Proof.
  unfold broadcast_dim. destruct (n =? 1) eqn:E; [reflexivity|].
  simpl. reflexivity.
Qed.

Lemma expand_lt (d i : nat) : i < d -> (if d =? 1 then 0 else i) = i.
Proof. intros Hi. destruct (d =? 1) eqn:E; [apply Nat.eqb_eq in E; lia | reflexivity]. Qed.

Lemma offset_nth_indices (s : list nat) (k : nat) :
  k < numel s -> offset s (nth k (indices s) []) = k.
Proof.
  revert k. induction s as [|d s IH]; intros k Hk; simpl in *.
  - destruct k; [reflexivity | lia].
  - assert (Hm : numel s <> 0) by (intros E; rewrite E in Hk; lia).
    pose proof (Nat.div_mod_eq k (numel s)) as Ek.
    pose proof (Nat.mod_upper_bound k (numel s) Hm) as Hj.
    assert (Hi : k / numel s < d).
    { apply Nat.Div0.div_lt_upper_bound. lia. }
    rewrite Ek at 1. rewrite (Nat.mul_comm (numel s)).
    rewrite nth_flat_map_uniform with (m := numel s) (a := 0).
    + rewrite seq_nth by assumption. simpl.
      rewrite nth_indep with (d' := (k / numel s) :: [])
        by (rewrite length_map, length_indices; assumption).
      rewrite (map_nth (cons (k / numel s)) (indices s) [] (k mod numel s)).
      rewrite IH by assumption. lia.
    + intros x. rewrite length_map. apply length_indices.
    + rewrite length_seq. assumption.
    + assumption.
Qed.

Ltac split_index H :=
  repeat (let i := fresh "i" in
          let r := fresh "r" in
          let Hi := fresh "Hi" in
          apply in_indices_cons in H as (i & r & -> & Hi & H));
  apply in_indices_nil in H; subst.

Ltac solve_in_indices :=
  repeat (apply in_indices_cons; eexists _, _;
          split; [reflexivity | split; [assumption|]]);
  apply in_indices_nil; reflexivity.

Section BroadcastFacts.
Context {T : Type} `{Scalar T}.

Lemma tabulate_ext (s : list nat) (f f' : list nat -> T) :
  (forall idx, In idx (indices s) -> f idx = f' idx) ->
  tabulate s f = tabulate s f'.
Proof. intros E. unfold tabulate. f_equal. apply map_ext_in, E. Qed.

Lemma tabulate_get (t : tensor T) : wf t -> tabulate (shape t) (get t) = t.
Proof.
  intros Hwf. destruct t as [s l]. unfold wf, tabulate, get in *. simpl in *.
  f_equal. apply nth_ext with (d := s_zero) (d' := s_zero).
  - rewrite length_map, length_indices. symmetry. assumption.
  - intros k Hk. rewrite length_map, length_indices in Hk.
    rewrite nth_indep with (d' := (fun idx => nth (offset s idx) l s_zero) [])
      by (rewrite length_map, length_indices; assumption).
    rewrite (map_nth (fun idx => nth (offset s idx) l s_zero) (indices s) [] k).
    rewrite offset_nth_indices by assumption. reflexivity.
Qed.

(** Broadcasting a per-channel scale (1, C, 1, 1) against a one-channel map
    (N, 1, H, W). *)
Lemma mul_channel_scale (w n : tensor T) (bn c hh ww : nat) :
  shape w = [1; c; 1; 1] -> shape n = [bn; 1; hh; ww] ->
  mul w n =
  Ok (tabulate [bn; c; hh; ww]
        (fun idx => match idx with
                    | [b; ch; i; j] => s_mul (get w [0; ch; 0; 0]) (get n [b; 0; i; j])
                    | _ => s_zero
                    end)).
Proof.
  intros Hw Hn. unfold mul, broadcast2, broadcast_shapes. rewrite Hw, Hn.
  simpl. rewrite !broadcast_dim_1_l, !broadcast_dim_1_r. simpl.
  f_equal. apply tabulate_ext. intros idx Hin. split_index Hin.
  unfold bget, get. rewrite Hw, Hn. simpl.
  rewrite !expand_lt by assumption. reflexivity.
Qed.

(** Adding two tensors of one four-axis shape. *)
Lemma add_same_shape4 (a b : tensor T) (bn c hh ww : nat) :
  shape a = [bn; c; hh; ww] -> shape b = [bn; c; hh; ww] ->
  add a b =
  Ok (tabulate [bn; c; hh; ww] (fun idx => s_add (get a idx) (get b idx))).
Proof.
  intros Ha Hb. unfold add, broadcast2, broadcast_shapes. rewrite Ha, Hb.
  simpl. rewrite !broadcast_dim_same. simpl.
  f_equal. apply tabulate_ext. intros idx Hin. split_index Hin.
  unfold bget, get. rewrite Ha, Hb. simpl.
  rewrite !expand_lt by assumption. reflexivity.
Qed.

(** A kernel (1, O, C, k, k) against a per-sample scale (N, 1, C, 1, 1). *)
Lemma mul_kernel_style (a b : tensor T) (bn o c kh kw : nat) :
  shape a = [1; o; c; kh; kw] -> shape b = [bn; 1; c; 1; 1] ->
  mul a b =
  Ok (tabulate [bn; o; c; kh; kw]
        (fun idx => match idx with
                    | [n; oc; ci; u; v] =>
                        s_mul (get a [0; oc; ci; u; v]) (get b [n; 0; ci; 0; 0])
                    | _ => s_zero
                    end)).
Proof.
  intros Ha Hb. unfold mul, broadcast2, broadcast_shapes. rewrite Ha, Hb.
  simpl. rewrite !broadcast_dim_1_l, !broadcast_dim_1_r, !broadcast_dim_same.
  simpl. f_equal. apply tabulate_ext. intros idx Hin. split_index Hin.
  unfold bget, get. rewrite Ha, Hb. simpl.
  rewrite !expand_lt by assumption. reflexivity.
Qed.

(** Per-sample kernels (N, O, C, k, k) against a factor (N, O, 1, 1, 1). *)
Lemma mul_kernel_factor (a b : tensor T) (bn o c kh kw : nat) :
  shape a = [bn; o; c; kh; kw] -> shape b = [bn; o; 1; 1; 1] ->
  mul a b =
  Ok (tabulate [bn; o; c; kh; kw]
        (fun idx => match idx with
                    | [n; oc; ci; u; v] =>
                        s_mul (get a [n; oc; ci; u; v]) (get b [n; oc; 0; 0; 0])
                    | _ => s_zero
                    end)).
Proof.
  intros Ha Hb. unfold mul, broadcast2, broadcast_shapes. rewrite Ha, Hb.
  simpl. rewrite !broadcast_dim_1_r, !broadcast_dim_same.
  simpl. f_equal. apply tabulate_ext. intros idx Hin. split_index Hin.
  unfold bget, get. rewrite Ha, Hb. simpl.
  rewrite !expand_lt by assumption. reflexivity.
Qed.

End BroadcastFacts.

(* ================================================================= *)
(** ** NoiseInjection *)

Section NoiseInjectionFacts.
Context {T : Type} `{Scalar T}.

Lemma forward_with_noise (self : NoiseInjection.t T) (x n : tensor T)
      (g : rng T) (bn c hh ww : nat) :
  shape (NoiseInjection.weight self) = [1; c; 1; 1] ->
  shape x = [bn; c; hh; ww] ->
  shape n = [bn; 1; hh; ww] ->
  NoiseInjection.forward self x (Some n) g
  = Ok (NoiseInjection.injected (NoiseInjection.weight self) x n bn c hh ww, g).
Proof.
  intros Hw Hx Hn. unfold NoiseInjection.forward. simpl.
  rewrite (mul_channel_scale _ _ Hw Hn). simpl.
  rewrite add_same_shape4 with (bn := bn) (c := c) (hh := hh) (ww := ww)
    by (assumption || reflexivity).
  unfold NoiseInjection.injected. cbn [bind].
  f_equal. f_equal. apply tabulate_ext. intros idx Hin.
  pose proof Hin as Hin'. split_index Hin'.
  rewrite get_tabulate by assumption. reflexivity.
Qed.

Lemma forward_without_noise (self : NoiseInjection.t T) (x : tensor T)
      (g : rng T) (bn c hh ww : nat) :
  shape (NoiseInjection.weight self) = [1; c; 1; 1] ->
  shape x = [bn; c; hh; ww] ->
  NoiseInjection.forward self x None g
  = Ok (NoiseInjection.injected (NoiseInjection.weight self) x
                 (fst (randn [bn; 1; hh; ww] g)) bn c hh ww,
        snd (randn [bn; 1; hh; ww] g)).
Proof.
  intros Hw Hx. unfold NoiseInjection.forward. rewrite Hx.
  change (Ok (randn [bn; 1; hh; ww] g))
    with (Ok (fst (randn [bn; 1; hh; ww] g), snd (randn [bn; 1; hh; ww] g))).
  cbn [bind].
  pose proof (@forward_with_noise self x (fst (randn [bn; 1; hh; ww] g))
                (snd (randn [bn; 1; hh; ww] g)) bn c hh ww Hw Hx eq_refl) as E.
  unfold NoiseInjection.forward in E. cbn [bind] in E. exact E.
Qed.

Lemma get_injected (w x n : tensor T) (bn c hh ww b ch i j : nat) :
  b < bn -> ch < c -> i < hh -> j < ww ->
  get (NoiseInjection.injected w x n bn c hh ww) [b; ch; i; j]
  = s_add (get x [b; ch; i; j]) (s_mul (get w [0; ch; 0; 0]) (get n [b; 0; i; j])).
Proof.
  intros Hb Hc Hi Hj. unfold NoiseInjection.injected. rewrite get_tabulate; [reflexivity|].
  apply in_indices_cons. exists b, [ch; i; j]. repeat split; [assumption|].
  apply in_indices_cons. exists ch, [i; j]. repeat split; [assumption|].
  apply in_indices_cons. exists i, [j]. repeat split; [assumption|].
  apply in_indices_cons. exists j, []. repeat split; [assumption|].
  apply in_indices_nil. reflexivity.
Qed.

End NoiseInjectionFacts.

(** C6. With the noise tensor supplied, [NoiseInjection.forward] returns
    [x + weight * noise] (the (1, C, 1, 1) scale broadcast over batch and
    space), a tensor of the shape of [x]; the result is the same for every
    state of the random generator and that state is handed back untouched. *)
Theorem noise_injection_supplied_noise :
  forall (T : Type) (SC : Scalar T) (self : NoiseInjection.t T)
         (x n : tensor T) (bn c hh ww : nat),
    shape (NoiseInjection.weight self) = [1; c; 1; 1] ->
    shape x = [bn; c; hh; ww] ->
    shape n = [bn; 1; hh; ww] ->
    exists out : tensor T,
      (forall g : rng T, NoiseInjection.forward self x (Some n) g = Ok (out, g)) /\
      shape out = shape x /\ wf out /\
      (forall b ch i j, b < bn -> ch < c -> i < hh -> j < ww ->
         get out [b; ch; i; j]
         = s_add (get x [b; ch; i; j])
                 (s_mul (get (NoiseInjection.weight self) [0; ch; 0; 0])
                        (get n [b; 0; i; j]))).
Proof.
  intros T SC self x n bn c hh ww Hw Hx Hn.
  exists (NoiseInjection.injected (NoiseInjection.weight self) x n bn c hh ww).
  split; [|split; [|split]].
  - intros g. apply forward_with_noise; assumption.
  - rewrite Hx. reflexivity.
  - apply wf_tabulate.
  - intros b ch i j Hb Hc Hi Hj. apply get_injected; assumption.
Qed.

Lemma get_zeros_R (s idx : list nat) : get (zeros (T := R) s) idx = 0%R.
Proof. unfold get, zeros, full. simpl. apply nth_repeat. Qed.

Lemma injected_zero_weight (x n : tensor R) (bn c hh ww : nat) :
  shape x = [bn; c; hh; ww] -> wf x ->
  NoiseInjection.injected (zeros [1; c; 1; 1]) x n bn c hh ww = x.
Proof.
  intros Hx Hwf. rewrite <- (tabulate_get Hwf) at 2. rewrite Hx.
  apply tabulate_ext. intros idx Hin. split_index Hin.
  rewrite get_zeros_R. simpl. lra.
Qed.

(** C10. A freshly constructed [NoiseInjection] carries an all-zero scale of
    shape (1, C, 1, 1), and its forward pass returns the feature map it was
    given, whether the noise (N, 1, H, W) is supplied or drawn. *)
Theorem fresh_noise_injection_is_identity :
  forall (c : nat) (x : tensor R) (noise : option (tensor R)) (g : rng R)
         (bn hh ww : nat),
    shape x = [bn; c; hh; ww] -> wf x ->
    (forall n, noise = Some n -> shape n = [bn; 1; hh; ww]) ->
    shape (NoiseInjection.weight (NoiseInjection.init c)) = [1; c; 1; 1] /\
    Forall (fun v => v = 0%R) (data (NoiseInjection.weight (NoiseInjection.init c))) /\
    exists g' : rng R,
      NoiseInjection.forward (NoiseInjection.init c) x noise g = Ok (x, g').
Proof.
  intros c x noise g bn hh ww Hx Hwf Hn. split; [reflexivity|]. split.
  - simpl. apply Forall_forall. intros v Hv. apply repeat_spec in Hv. assumption.
  - destruct noise as [n|].
    + exists g. rewrite forward_with_noise with (bn := bn) (c := c) (hh := hh) (ww := ww);
        [|reflexivity|assumption|apply Hn; reflexivity].
      simpl. rewrite injected_zero_weight by assumption. reflexivity.
    + exists (snd (randn [bn; 1; hh; ww] g)).
      rewrite forward_without_noise with (bn := bn) (c := c) (hh := hh) (ww := ww);
        [|reflexivity|assumption].
      simpl. rewrite injected_zero_weight by assumption. reflexivity.
Qed.

(* ================================================================= *)
(** ** ModulatedConv2d: modulation *)

Lemma length_flat_map_seq {B : Type} (f : nat -> nat -> B) (a b : nat) :
  length (flat_map (fun r => map (f r) (seq 0 b)) (seq 0 a)) = a * b.
Proof.
  rewrite length_flat_map.
  assert (E : forall l : list nat,
             list_sum (map (fun r => length (map (f r) (seq 0 b))) l) = length l * b).
  { induction l as [|x l IH]; simpl; [reflexivity|].
    rewrite IH, length_map, length_seq. reflexivity. }
  rewrite E, length_seq. reflexivity.
Qed.

Lemma nth_flat_map_seq {B : Type} (f : nat -> nat -> B) (a b i j : nat) (d : B) :
  i < a -> j < b ->
  nth (i * b + j) (flat_map (fun r => map (f r) (seq 0 b)) (seq 0 a)) d = f i j.
Proof.
  intros Hi Hj.
  rewrite nth_flat_map_uniform with (m := b) (a := 0).
  - rewrite seq_nth by assumption. simpl.
    rewrite nth_indep with (d' := f i 0) by (rewrite length_map, length_seq; assumption).
    rewrite (map_nth (f i) (seq 0 b) 0 j). rewrite seq_nth by assumption. reflexivity.
  - intros x. rewrite length_map, length_seq. reflexivity.
  - rewrite length_seq. assumption.
  - assumption.
Qed.

Lemma nth_map_lt {A B : Type} (f : A -> B) (l : list A) (k : nat) (d : B) (d' : A) :
  k < length l -> nth k (map f l) d = f (nth k l d').
Proof.
  intros Hk. rewrite nth_indep with (d' := f d') by (rewrite length_map; assumption).
  apply map_nth.
Qed.

Section ModulationFacts.
Context {T : Type} `{Torch T}.

Lemma linear_no_bias (x w : tensor T) (m n_in n_out : nat) :
  shape w = [n_out; n_in] -> shape x = [m; n_in] ->
  linear x w None
  = Ok (mkTensor [m; n_out]
          (flat_map
             (fun r => map (fun o =>
                              sum_list
                                (map (fun j => s_mul (nth (r * n_in + j) (data x) s_zero)
                                                     (nth (o * n_in + j) (data w) s_zero))
                                     (seq 0 n_in)))
                           (seq 0 n_out))
             (seq 0 m))).
Proof.
  intros Hw Hx. unfold linear. rewrite Hw, Hx. simpl.
  rewrite Nat.eqb_refl. simpl. rewrite Nat.mul_1_r. reflexivity.
Qed.

Lemma modulate_value (self : ModulatedConv2d.t T) (style : tensor T)
      (style_dim batch : nat) :
  ModulatedConv2d.constructed self style_dim ->
  shape style = [batch; style_dim] ->
  ModulatedConv2d.modulate self batch (ModulatedConv2d.in_channels self) style
  = Ok (ModulatedConv2d.modulated self style style_dim batch).
Proof.
  intros [Hw Hwf Hm Hn Hfan Hsc] Hs. unfold ModulatedConv2d.modulate.
  rewrite (linear_no_bias _ _ Hm Hs). cbn [bind].
  rewrite view_ok by (simpl; rewrite length_flat_map_seq; lia). cbn [bind].
  unfold unsqueeze. rewrite Hw. simpl.
  erewrite mul_kernel_style by reflexivity.
  f_equal. apply tabulate_ext. intros idx Hin.
  pose proof Hin as Hin'. split_index Hin'.
  unfold ModulatedConv2d.projected_style. f_equal.
  - unfold get, scalar_mul. simpl. rewrite Hw.
    rewrite nth_map_lt with (d' := s_zero); [reflexivity|].
    rewrite Hwf, Hw.
    match goal with
    | |- _ < numel ?s => apply (@offset_lt s [i0; i1; i2; i3])
    end.
    solve_in_indices.
  - unfold get. simpl.
    match goal with
    | |- nth ?k _ _ = _ =>
        replace k with (i * ModulatedConv2d.in_channels self + i1) by lia
    end.
    apply (nth_flat_map_seq
             (fun r o =>
                sum_list
                  (map (fun j =>
                          s_mul (nth (r * style_dim + j) (data style) s_zero)
                                (nth (o * style_dim + j)
                                     (data (ModulatedConv2d.modulation self)) s_zero))
                       (seq 0 style_dim)))); assumption.
Qed.

End ModulationFacts.

(* ================================================================= *)
(** ** ModulatedConv2d: demodulation *)

Section DemodulationFacts.
Context {T : Type} `{Scalar T}.

Lemma get_pow2 (w : tensor T) (idx : list nat) :
  wf w -> In idx (indices (shape w)) ->
  get (pow2 w) idx = s_mul (get w idx) (get w idx).
Proof.
  intros Hwf Hin. unfold get, pow2, map_tensor. simpl.
  rewrite nth_map_lt with (d' := s_zero); [reflexivity|].
  rewrite Hwf. apply offset_lt, Hin.
Qed.

Lemma demodulation_value (self : ModulatedConv2d.t T) (w : tensor T)
      (bn c kh kw : nat) :
  ModulatedConv2d.demodulate self = true ->
  shape w = [bn; ModulatedConv2d.out_channels self; c; kh; kw] ->
  wf w ->
  ModulatedConv2d.demodulation self bn w
  = Ok (ModulatedConv2d.demodulated w bn (ModulatedConv2d.out_channels self) c kh kw).
Proof.
  intros Hd Hw Hwf. unfold ModulatedConv2d.demodulation. rewrite Hd.
  unfold sum_234. cbn [shape pow2 map_tensor]. rewrite Hw. cbn [bind].
  rewrite view_ok
    by (unfold rsqrt, add_scalar, map_tensor, tabulate; cbn [data numel];
        rewrite !length_map, length_indices; cbn [numel]; lia).
  cbn [bind]. erewrite mul_kernel_factor by (eassumption || reflexivity).
  f_equal. apply tabulate_ext. intros idx Hin.
  pose proof Hin as Hin'. split_index Hin'. f_equal.
  unfold get, rsqrt, add_scalar, map_tensor, tabulate. cbn [shape data].
  rewrite !map_map.
  match goal with
  | |- nth ?k _ _ = _ =>
      replace k with (offset [bn; ModulatedConv2d.out_channels self] [i; i0])
        by (cbn [offset numel]; lia)
  end.
  rewrite nth_map_indices by solve_in_indices.
  unfold ModulatedConv2d.energy. rewrite Hw. do 3 f_equal.
  apply map_ext_in. intros r Hr. cbn [app].
  apply (@get_pow2 w (i :: i0 :: r)); [assumption|]. rewrite Hw.
  apply in_indices_cons. exists i, (i0 :: r). repeat split; [assumption|].
  apply in_indices_cons. exists i0, r. repeat split; assumption.
Qed.

End DemodulationFacts.

Lemma fold_left_Rplus_scale {A : Type} (f : A -> R) (c : R) (l : list A) (a : R) :
  fold_left Rplus (map (fun x => (c * f x)%R) l) (c * a)%R
  = (c * fold_left Rplus (map f l) a)%R.
Proof.
  revert a. induction l as [|x l IH]; intros a; simpl; [reflexivity|].
  rewrite <- IH. f_equal. ring.
Qed.

Lemma fold_left_Rplus_squares_nonneg {A : Type} (f : A -> R) (l : list A) (a : R) :
  (0 <= a)%R -> (0 <= fold_left Rplus (map (fun x => f x * f x) l) a)%R.
Proof.
  revert a. induction l as [|x l IH]; intros a Ha; simpl; [assumption|].
  apply IH. pose proof (Rle_0_sqr (f x)) as Hs. unfold Rsqr in Hs. lra.
Qed.

Lemma energy_nonneg (w : tensor R) (n o : nat) :
  (0 <= ModulatedConv2d.energy w n o)%R.
Proof.
  unfold ModulatedConv2d.energy.
  destruct (shape w) as [|? [|? [|? [|? [|? [|? ?]]]]]]; simpl; try lra.
  apply (fold_left_Rplus_squares_nonneg (fun r => get w (n :: o :: r))).
  apply Rle_refl.
Qed.

Lemma rsqrt_squared (e : R) :
  (0 <= e)%R -> (s_rsqrt (s_add e s_eps) * s_rsqrt (s_add e s_eps) = / (e + s_eps))%R.
Proof.
  intros He. simpl.
  assert (Hpos : (0 < e + / 100000000)%R) by lra.
  rewrite <- Rinv_mult. rewrite sqrt_sqrt by lra. reflexivity.
Qed.

Lemma energy_demodulated (w : tensor R) (bn o c kh kw n oc : nat) :
  shape w = [bn; o; c; kh; kw] -> n < bn -> oc < o ->
  ModulatedConv2d.energy (ModulatedConv2d.demodulated w bn o c kh kw) n oc
  = (ModulatedConv2d.energy w n oc / (ModulatedConv2d.energy w n oc + s_eps))%R.
Proof.
  intros Hw Hn Ho.
  pose proof (rsqrt_squared (energy_nonneg w n oc)) as Hd.
  unfold ModulatedConv2d.energy at 1. cbn [ModulatedConv2d.demodulated tabulate shape].
  set (d := s_rsqrt (s_add (ModulatedConv2d.energy w n oc) s_eps)) in *.
  transitivity
    (sum_list (map (fun r => ((d * d) * (get w (n :: oc :: r) * get w (n :: oc :: r)))%R)
                   (indices [c; kh; kw]))).
  - f_equal. apply map_ext_in. intros r Hr.
    assert (Hin : In (n :: oc :: r) (indices [bn; o; c; kh; kw])).
    { apply in_indices_cons. exists n, (oc :: r). repeat split; [assumption|].
      apply in_indices_cons. exists oc, r. repeat split; assumption. }
    unfold ModulatedConv2d.demodulated. rewrite get_tabulate by assumption.
    split_index Hr. fold d. simpl. ring.
  - unfold sum_list. change (@s_zero R R_Scalar) with 0%R.
    change (@s_add R R_Scalar) with Rplus.
    replace 0%R with (d * d * 0)%R at 1 by ring.
    rewrite (fold_left_Rplus_scale
               (fun r => (get w (n :: oc :: r) * get w (n :: oc :: r))%R)).
    rewrite Hd. unfold ModulatedConv2d.energy. rewrite Hw.
    unfold sum_list. change (@s_zero R R_Scalar) with 0%R.
    change (@s_add R R_Scalar) with Rplus. change (@s_mul R R_Scalar) with Rmult.
    unfold Rdiv. ring.
Qed.

(** C2. With [demodulate=True], for every batch size and style batch, the
    sum of squares of each (sample, output-channel) slice of the demodulated
    kernel over the (C_in, k, k) axes is E / (E + 1e-8), where E is the sum of
    squares of that slice before demodulation. *)
Theorem demodulated_kernel_energy :
  forall (self : ModulatedConv2d.t R) (style : tensor R) (style_dim batch : nat),
    ModulatedConv2d.constructed self style_dim ->
    ModulatedConv2d.demodulate self = true ->
    shape style = [batch; style_dim] ->
    exists w w' : tensor R,
      ModulatedConv2d.modulate self batch (ModulatedConv2d.in_channels self) style
      = Ok w /\
      ModulatedConv2d.demodulation self batch w = Ok w' /\
      forall n o, n < batch -> o < ModulatedConv2d.out_channels self ->
        ModulatedConv2d.energy w' n o
        = (ModulatedConv2d.energy w n o
           / (ModulatedConv2d.energy w n o + / 100000000))%R.
Proof.
  intros self style style_dim batch Hc Hd Hs.
  exists (ModulatedConv2d.modulated self style style_dim batch).
  eexists. split; [apply modulate_value; assumption|]. split.
  - apply demodulation_value; [assumption|reflexivity|apply wf_tabulate].
  - intros n o Hn Ho. apply energy_demodulated; [reflexivity|assumption|assumption].
Qed.

(* ================================================================= *)
(** ** ModulatedConv2d: the zero style *)

Lemma unit_layer_is_built :
  ModulatedConv2d.init 1 1 1 1 true 1 1 0 Examples.ones_tape
  = Ok (Examples.unit_layer, mkRng (fun _ => 1%R) 2).
Proof. reflexivity. Qed.

Lemma unit_layer_constructed : ModulatedConv2d.constructed Examples.unit_layer 1.
Proof. constructor; try reflexivity. simpl. lia. Qed.

Lemma nth_all_zero (l : list R) (k : nat) :
  Forall (fun v => v = 0%R) l -> nth k l 0%R = 0%R.
Proof.
  intros Hl. destruct (Nat.lt_ge_cases k (length l)) as [Hk|Hk].
  - rewrite Forall_forall in Hl. apply Hl. apply nth_In. assumption.
  - apply nth_overflow. assumption.
Qed.

Lemma fold_left_Rplus_zeros {A : Type} (f : A -> R) (l : list A) (a : R) :
  fold_left Rplus (map (fun x => (0 * f x)%R) l) a = a.
Proof.
  revert a. induction l as [|x l IH]; intros a; simpl; [reflexivity|].
  rewrite IH. ring.
Qed.

Lemma projected_zero_style (self : ModulatedConv2d.t R) (style : tensor R)
      (style_dim n c : nat) :
  Forall (fun v => v = 0%R) (data style) ->
  ModulatedConv2d.projected_style self style style_dim n c = 0%R.
Proof.
  intros Hz. unfold ModulatedConv2d.projected_style, sum_list.
  change (@s_zero R R_Scalar) with 0%R. change (@s_add R R_Scalar) with Rplus.
  change (@s_mul R R_Scalar) with Rmult.
  rewrite map_ext with
    (g := fun j => (0 * nth (c * style_dim + j) (data (ModulatedConv2d.modulation self)) 0)%R)
    by (intros j; rewrite nth_all_zero by assumption; reflexivity).
  apply fold_left_Rplus_zeros.
Qed.

(** C5, as the code has it.  With no bias in the modulation projection an
    all-zero style projects to an all-zero per-channel scale, and the
    modulated per-sample kernel (before demodulation) is the base kernel
    times the constant [scale] times that zero: every entry is zero. *)
Theorem zero_style_modulated_kernel_is_zero :
  forall (self : ModulatedConv2d.t R) (style : tensor R) (style_dim batch : nat),
    ModulatedConv2d.constructed self style_dim ->
    shape style = [batch; style_dim] ->
    Forall (fun v => v = 0%R) (data style) ->
    exists w : tensor R,
      ModulatedConv2d.modulate self batch (ModulatedConv2d.in_channels self) style
      = Ok w /\
      shape w = [batch; ModulatedConv2d.out_channels self;
                 ModulatedConv2d.in_channels self;
                 ModulatedConv2d.kernel_size self; ModulatedConv2d.kernel_size self] /\
      (forall n o c u v,
          n < batch -> o < ModulatedConv2d.out_channels self ->
          c < ModulatedConv2d.in_channels self ->
          u < ModulatedConv2d.kernel_size self ->
          v < ModulatedConv2d.kernel_size self ->
          get w [n; o; c; u; v]
          = (ModulatedConv2d.scale self
             * get (ModulatedConv2d.weight self) [o; c; u; v] * 0)%R) /\
      Forall (fun v => v = 0%R) (data w).
Proof.
  intros self style style_dim batch Hc Hs Hz.
  exists (ModulatedConv2d.modulated self style style_dim batch).
  split; [apply modulate_value; assumption|]. split; [reflexivity|]. split.
  - intros n o c u v Hn Ho Hc' Hu Hv. unfold ModulatedConv2d.modulated.
    rewrite get_tabulate by solve_in_indices.
    rewrite projected_zero_style by assumption. reflexivity.
  - unfold ModulatedConv2d.modulated, tabulate. cbn [data]. apply Forall_forall. intros x Hx.
    apply in_map_iff in Hx as (idx & <- & Hin). split_index Hin.
    rewrite projected_zero_style by assumption. simpl. ring.
Qed.

(** C5 fails as stated: for the layer [ModulatedConv2d(1, 1, 1, 1)] with base
    kernel 1 and the zero style, the modulated kernel entry is not
    [scale * base]. *)
Lemma zero_style_kernel_is_not_scaled_base :
  exists w : tensor R,
    ModulatedConv2d.modulate Examples.unit_layer 1 1 Examples.zero_style = Ok w /\
    get w [0; 0; 0; 0; 0]
    <> Rmult (ModulatedConv2d.scale Examples.unit_layer)
             (get (ModulatedConv2d.weight Examples.unit_layer) [0; 0; 0; 0]).
Proof.
  exists (ModulatedConv2d.modulated Examples.unit_layer Examples.zero_style 1 1). split.
  - apply modulate_value with (style_dim := 1);
      [apply unit_layer_constructed | reflexivity].
  - unfold ModulatedConv2d.modulated. rewrite get_tabulate by (simpl; auto).
    rewrite projected_zero_style by (repeat constructor).
    unfold get. simpl. rewrite sqrt_1. lra.
Qed.

(* ================================================================= *)
(** ** ModulatedConv2d: the grouped convolution *)

Lemma seq_add (m a k : nat) : seq (k + a) m = map (Nat.add k) (seq a m).
Proof.
  revert a. induction m as [|m IH]; intros a; simpl; [reflexivity|].
  f_equal. rewrite <- IH. f_equal. lia.
Qed.

Lemma flat_map_map {A B C : Type} (f : A -> B) (g : B -> list C) (l : list A) :
  flat_map g (map f l) = flat_map (fun x => g (f x)) l.
Proof. induction l as [|x l IH]; simpl; [reflexivity | rewrite IH; reflexivity]. Qed.

Lemma map_flat_map {A B C : Type} (f : B -> C) (g : A -> list B) (l : list A) :
  map f (flat_map g l) = flat_map (fun x => map f (g x)) l.
Proof.
  induction l as [|x l IH]; simpl; [reflexivity|].
  rewrite map_app, IH. reflexivity.
Qed.

Lemma indices_one (s : list nat) : indices (1 :: s) = map (cons 0) (indices s).
Proof. simpl. apply app_nil_r. Qed.

(** The indices of an axis of length [n * m], read as [n] blocks of [m]. *)
Lemma indices_blocks (n m : nat) (r : list nat) :
  indices ((n * m) :: r)
  = flat_map (fun i => map (fun idx => match idx with
                                       | o :: t => (i * m + o) :: t
                                       | [] => []
                                       end)
                           (indices (m :: r)))
             (seq 0 n).
Proof.
  induction n as [|n IH].
  - reflexivity.
  - rewrite seq_S, flat_map_app, <- IH. cbn [flat_map]. rewrite app_nil_r.
    cbn [indices]. replace (S n * m) with (n * m + m) by lia.
    rewrite seq_app, flat_map_app. f_equal.
    cbn [Nat.add]. rewrite <- (Nat.add_0_r (n * m)) at 1.
    rewrite seq_add, flat_map_map, map_flat_map.
    apply flat_map_ext. intros o. rewrite map_map. reflexivity.
Qed.

Lemma mapM_ok {A B : Type} (f : A -> result B) (h : A -> B) (l : list A) :
  (forall a, In a l -> f a = Ok (h a)) -> mapM f l = Ok (map h l).
Proof.
  induction l as [|a l IH]; intros Hf; simpl; [reflexivity|].
  rewrite Hf by (left; reflexivity). simpl.
  rewrite IH by (intros b Hb; apply Hf; right; assumption). reflexivity.
Qed.

Lemma mapM_raise {A B : Type} (f : A -> result B) (a : A) (l : list A) (e : exn) :
  f a = Raise e -> mapM f (a :: l) = Raise e.
Proof. intros Hf. simpl. rewrite Hf. reflexivity. Qed.

Lemma list_sum_ones {A : Type} (l : list A) :
  list_sum (map (fun _ => 1) l) = length l.
Proof. induction l as [|a l IH]; simpl; [reflexivity | rewrite IH; reflexivity]. Qed.

Section GroupedConvFacts.
Context {T : Type} `{Scalar T}.
Variables (x w : tensor T) (bn c hh ww o kh kw : nat).
Hypothesis Hx : shape x = [bn; c; hh; ww].
Hypothesis Hw : shape w = [bn; o; c; kh; kw].

(** The folded input (1, N*C, H, W) at channel [i*C + ci] is sample [i]
    at channel [ci]. *)
Lemma get_folded_input (i ci y xx : nat) :
  ci < c -> y < hh -> xx < ww ->
  get (mkTensor [1; bn * c; hh; ww] (data x)) [0; i * c + ci; y; xx]
  = get (narrow0 x i) [0; ci; y; xx].
Proof.
  intros Hc Hy Hxx. unfold get, narrow0. rewrite Hx.
  cbn [shape data offset numel]. rewrite nth_firstn.
  assert (Hlt : 0 * (c * (hh * (ww * 1))) + (ci * (hh * (ww * 1)) + (y * (ww * 1) + (xx * 1 + 0)))
                < c * (hh * (ww * 1))).
  { pose proof (@offset_lt [c; hh; ww] [ci; y; xx]) as Hlt.
    cbn [offset numel] in Hlt. rewrite Nat.mul_0_l, Nat.add_0_l.
    apply Hlt. solve_in_indices. }
  apply Nat.ltb_lt in Hlt. rewrite Hlt. rewrite nth_skipn. f_equal. ring.
Qed.

(** The folded kernel (N*O, C, k, k) at output channel [i*O + oc] is
    kernel slice [i] at output channel [oc]. *)
Lemma get_folded_weight (i oc ci u v : nat) :
  oc < o -> ci < c -> u < kh -> v < kw ->
  get (mkTensor [bn * o; c; kh; kw] (data w)) [i * o + oc; ci; u; v]
  = get (select0 w i) [oc; ci; u; v].
Proof.
  intros Ho Hc Hu Hv. unfold get, select0. rewrite Hw.
  cbn [shape data offset numel]. rewrite nth_firstn.
  assert (Hlt : oc * (c * (kh * (kw * 1))) + (ci * (kh * (kw * 1)) + (u * (kw * 1) + (v * 1 + 0)))
                < o * (c * (kh * (kw * 1)))).
  { apply (@offset_lt [o; c; kh; kw] [oc; ci; u; v]). solve_in_indices. }
  apply Nat.ltb_lt in Hlt. rewrite Hlt. rewrite nth_skipn. f_equal. ring.
Qed.

Lemma correlate_folded (p s i oc ii jj : nat) :
  bn <> 0 -> i < bn -> oc < o ->
  correlate (mkTensor [1; bn * c; hh; ww] (data x))
            (mkTensor [bn * o; c; kh; kw] (data w))
            p s bn hh ww (bn * o) c kh kw [0; i * o + oc; ii; jj]
  = correlate (narrow0 x i) (select0 w i) p s 1 hh ww o c kh kw [0; oc; ii; jj].
Proof.
  intros Hbn Hi Ho. unfold correlate.
  rewrite (Nat.mul_comm bn o), Nat.div_mul by assumption.
  rewrite Nat.div_add_l by lia. rewrite Nat.div_1_r.
  rewrite (Nat.div_small oc o) by assumption.
  rewrite Nat.add_0_r. f_equal. apply map_ext_in. intros r Hr.
  split_index Hr. cbn [Nat.mul Nat.add]. f_equal.
  - unfold padded.
    match goal with
    | |- (if ?b then _ else _) = _ => destruct b eqn:E; [|reflexivity]
    end.
    rewrite !andb_true_iff, !Nat.leb_le, !Nat.ltb_lt in E.
    apply get_folded_input; lia.
  - rewrite (Nat.mul_comm o bn). apply get_folded_weight; assumption.
Qed.

End GroupedConvFacts.

Section FoldedConv.
Context {T : Type} `{Scalar T}.

Lemma cat0_tabulate (s : list nat) (f : nat -> list nat -> T) (l : list nat) :
  l <> [] ->
  cat0 (map (fun i => tabulate (1 :: s) (f i)) l)
  = mkTensor (length l :: s)
             (concat (map (fun i => map (f i) (indices (1 :: s))) l)).
Proof.
  intros Hl. destruct l as [|a l]; [congruence|].
  unfold cat0. cbn [map]. f_equal.
  - cbn [tabulate shape tl]. f_equal.
    change (list_sum (map (fun t : tensor T => hd 0 (shape t))
                          (map (fun i => tabulate (1 :: s) (f i)) (a :: l))) = length (a :: l)).
    rewrite map_map. cbn [tabulate shape hd]. apply list_sum_ones.
  - change (concat (map data (map (fun i => tabulate (1 :: s) (f i)) (a :: l)))
            = concat (map (fun i => map (f i) (indices (1 :: s))) (a :: l))).
    rewrite map_map. reflexivity.
Qed.

Variables (x w : tensor T) (bn c hh ww o kh kw : nat).
Hypothesis Hx : shape x = [bn; c; hh; ww].
Hypothesis Hw : shape w = [bn; o; c; kh; kw].
Hypothesis Hbn : bn <> 0.

(** The data of the grouped convolution, block by block. *)
Lemma folded_data (p s ho wo : nat) :
  map (correlate (mkTensor [1; bn * c; hh; ww] (data x))
                 (mkTensor [bn * o; c; kh; kw] (data w))
                 p s bn hh ww (bn * o) c kh kw)
      (indices [1; bn * o; ho; wo])
  = concat (map (fun i =>
                   map (correlate (narrow0 x i) (select0 w i) p s 1 hh ww o c kh kw)
                       (indices [1; o; ho; wo]))
                (seq 0 bn)).
Proof.
  rewrite !indices_one, indices_blocks.
  rewrite map_map, map_flat_map, flat_map_concat_map. f_equal.
  apply map_ext_in. intros i Hi. apply in_seq in Hi.
  rewrite !map_map. apply map_ext_in. intros idx Hin. split_index Hin.
  apply correlate_folded; try assumption. lia.
Qed.

Lemma sample_shapes (i : nat) :
  shape (narrow0 x i) = [1; c; hh; ww] /\ shape (select0 w i) = [o; c; kh; kw].
Proof. unfold narrow0, select0. rewrite Hx, Hw. split; reflexivity. Qed.

(** One grouped convolution over the folded batch against one plain
    convolution per sample. *)
Lemma folded_conv (padding stride : Z) :
  (out <- conv2d (mkTensor [1; bn * c; hh; ww] (data x))
                 (mkTensor [bn * o; c; kh; kw] (data w)) padding stride bn ;;
   view out [bn; o; nth 2 (shape out) 0; nth 3 (shape out) 0])
  = (outs <- mapM (fun i => conv2d (narrow0 x i) (select0 w i) padding stride 1)
                  (seq 0 bn) ;;
     Ok (cat0 outs)).
Proof.
  assert (Hseq : seq 0 bn = 0 :: seq 1 (bn - 1)).
  { destruct bn as [|n]; [congruence|]. simpl. rewrite Nat.sub_0_r. reflexivity. }
  assert (Hsample : forall i,
             conv2d (narrow0 x i) (select0 w i) padding stride 1
             = if (stride <=? 0)%Z
               then Raise (RuntimeError "non-positive stride is not supported")
               else if (padding <? 0)%Z
               then Raise (RuntimeError "negative padding is not supported")
               else if o <? 1
               then Raise (RuntimeError "weight has fewer output channels than groups")
               else
                 let p := Z.to_nat padding in
                 let s := Z.to_nat stride in
                 if (hh + 2 * p <? kh) || (ww + 2 * p <? kw)
                 then Raise (RuntimeError "Kernel size can't be greater than actual input size")
                 else
                   Ok (tabulate [1; o; (hh + 2 * p - kh) / s + 1; (ww + 2 * p - kw) / s + 1]
                                (correlate (narrow0 x i) (select0 w i) p s 1
                                           hh ww o c kh kw))).
  { intros i. unfold conv2d. destruct (sample_shapes i) as [-> ->].
    rewrite Nat.mul_1_r, Nat.eqb_refl, Nat.mod_1_r. reflexivity. }
  unfold conv2d at 1. cbn [shape].
  assert (Eg : (bn =? 0) = false) by (apply Nat.eqb_neq; assumption).
  rewrite Eg, (Nat.mul_comm c bn), Nat.eqb_refl.
  rewrite (Nat.mul_comm bn o), Nat.Div0.mod_mul, (Nat.mul_comm o bn).
  cbn [negb Nat.eqb].
  assert (Eo : (bn * o <? bn) = (o <? 1)).
  { destruct o as [|o'].
    - rewrite Nat.mul_0_r. apply Nat.ltb_lt. lia.
    - transitivity false; [apply Nat.ltb_ge; nia | symmetry; apply Nat.ltb_ge; lia]. }
  rewrite Eo.
  destruct (stride <=? 0)%Z eqn:Es.
  { cbn [bind]. rewrite Hseq, mapM_raise with (e := RuntimeError "non-positive stride is not supported");
      [reflexivity | apply Hsample]. }
  destruct (padding <? 0)%Z eqn:Ep.
  { cbn [bind]. rewrite Hseq, mapM_raise with (e := RuntimeError "negative padding is not supported");
      [reflexivity | apply Hsample]. }
  destruct (o <? 1) eqn:Eo1.
  { cbn [bind]. rewrite Hseq, mapM_raise
      with (e := RuntimeError "weight has fewer output channels than groups");
      [reflexivity | apply Hsample]. }
  cbv zeta in *.
  destruct ((hh + 2 * Z.to_nat padding <? kh) || (ww + 2 * Z.to_nat padding <? kw)) eqn:Ek.
  { cbn [bind]. rewrite Hseq, mapM_raise
      with (e := RuntimeError "Kernel size can't be greater than actual input size");
      [reflexivity | apply Hsample]. }
  cbn [bind tabulate shape nth].
  rewrite view_ok
    by (unfold tabulate; cbn [data numel]; rewrite length_map, length_indices;
        cbn [numel]; lia).
  rewrite mapM_ok
    with (h := fun i =>
                 tabulate [1; o; (hh + 2 * Z.to_nat padding - kh) / Z.to_nat stride + 1;
                           (ww + 2 * Z.to_nat padding - kw) / Z.to_nat stride + 1]
                          (correlate (narrow0 x i) (select0 w i) (Z.to_nat padding)
                                     (Z.to_nat stride) 1 hh ww o c kh kw))
    by (intros i _; apply Hsample).
  cbn [bind]. f_equal.
  rewrite cat0_tabulate
    by (rewrite Hseq; discriminate).
  rewrite length_seq. unfold tabulate at 1. cbn [data]. f_equal. apply folded_data.
Qed.

End FoldedConv.

Section GroupedConvStep.
Context {T : Type} `{Scalar T}.
Variables (self : ModulatedConv2d.t T) (x w : tensor T) (bn c hh ww : nat).
Hypothesis Hx : shape x = [bn; c; hh; ww].
Hypothesis Hwfx : wf x.
Hypothesis Hw :
  shape w = [bn; ModulatedConv2d.out_channels self; c;
             ModulatedConv2d.kernel_size self; ModulatedConv2d.kernel_size self].
Hypothesis Hwfw : wf w.

Lemma fold_weight_ok :
  view w [bn * ModulatedConv2d.out_channels self; c;
          ModulatedConv2d.kernel_size self; ModulatedConv2d.kernel_size self]
  = Ok (mkTensor [bn * ModulatedConv2d.out_channels self; c;
                  ModulatedConv2d.kernel_size self; ModulatedConv2d.kernel_size self]
                 (data w)).
Proof. apply view_ok. rewrite Hwfw, Hw. cbn [numel]. ring. Qed.

Lemma fold_input_ok :
  reshape x [1; bn * c; hh; ww] = Ok (mkTensor [1; bn * c; hh; ww] (data x)).
Proof. apply view_ok. rewrite Hwfx, Hx. cbn [numel]. ring. Qed.

Lemma grouped_conv_per_sample :
  bn <> 0 ->
  ModulatedConv2d.grouped_conv self bn c hh ww x w
  = ModulatedConv2d.per_sample_conv self bn x w.
Proof.
  intros Hbn. unfold ModulatedConv2d.grouped_conv, ModulatedConv2d.per_sample_conv.
  rewrite fold_weight_ok. cbn [bind].
  destruct (ModulatedConv2d.stride_of self) as [s|e]; cbn [bind]; [|reflexivity].
  rewrite fold_input_ok. cbn [bind].
  apply folded_conv; assumption.
Qed.

Lemma grouped_conv_ok (s : Z) :
  bn <> 0 -> ModulatedConv2d.out_channels self <> 0 ->
  ModulatedConv2d.stride_of self = Ok s -> (0 < s)%Z ->
  (0 <= ModulatedConv2d.padding_of self)%Z ->
  ModulatedConv2d.kernel_size self
  <= hh + 2 * Z.to_nat (ModulatedConv2d.padding_of self) ->
  ModulatedConv2d.kernel_size self
  <= ww + 2 * Z.to_nat (ModulatedConv2d.padding_of self) ->
  exists out : tensor T,
    ModulatedConv2d.grouped_conv self bn c hh ww x w = Ok out /\
    wf out /\
    shape out
    = [bn; ModulatedConv2d.out_channels self;
       (hh + 2 * Z.to_nat (ModulatedConv2d.padding_of self)
        - ModulatedConv2d.kernel_size self) / Z.to_nat s + 1;
       (ww + 2 * Z.to_nat (ModulatedConv2d.padding_of self)
        - ModulatedConv2d.kernel_size self) / Z.to_nat s + 1].
Proof.
  intros Hbn Ho Hs Hspos Hp Hkh Hkw. unfold ModulatedConv2d.grouped_conv.
  rewrite fold_weight_ok. cbn [bind]. rewrite Hs. cbn [bind].
  rewrite fold_input_ok. cbn [bind].
  unfold conv2d. cbn [shape].
  replace (s <=? 0)%Z with false by (symmetry; apply Z.leb_gt; assumption).
  replace (ModulatedConv2d.padding_of self <? 0)%Z with false
    by (symmetry; apply Z.ltb_ge; assumption).
  replace (bn =? 0) with false by (symmetry; apply Nat.eqb_neq; assumption).
  rewrite (Nat.mul_comm c bn), Nat.eqb_refl.
  replace (bn * ModulatedConv2d.out_channels self <? bn) with false
    by (symmetry; apply Nat.ltb_ge; nia).
  rewrite (Nat.mul_comm bn (ModulatedConv2d.out_channels self)), Nat.Div0.mod_mul.
  cbn [negb Nat.eqb]. cbv zeta.
  replace ((hh + 2 * Z.to_nat (ModulatedConv2d.padding_of self)
            <? ModulatedConv2d.kernel_size self)
           || (ww + 2 * Z.to_nat (ModulatedConv2d.padding_of self)
               <? ModulatedConv2d.kernel_size self)) with false
    by (symmetry; apply orb_false_iff; split; apply Nat.ltb_ge; assumption).
  cbn [bind tabulate shape nth].
  rewrite view_ok
    by (unfold tabulate; cbn [data numel]; rewrite length_map, length_indices;
        cbn [numel]; ring).
  eexists. split; [reflexivity|]. split; [|reflexivity].
  unfold wf, tabulate. cbn [data shape numel]. rewrite length_map, length_indices.
  cbn [numel]. ring.
Qed.

End GroupedConvStep.

(** C1. Folding the per-sample kernels (N, C_out, C_in, k, k) into
    (N*C_out, C_in, k, k) and the input (N, C_in, H, W) into (1, N*C_in, H, W),
    running one grouped convolution with [groups = N] and unfolding the
    result to (N, C_out, H', W') gives exactly the result of convolving every
    sample on its own with its own kernel slice; for a positive stride, a
    non-negative padding and a kernel that fits the padded input, that
    result is a tensor of shape (N, C_out, H', W'). *)
Theorem grouped_conv_is_per_sample_conv :
  forall (T : Type) (SC : Scalar T) (self : ModulatedConv2d.t T)
         (x w : tensor T) (bn c hh ww : nat),
    shape x = [bn; c; hh; ww] -> wf x ->
    shape w = [bn; ModulatedConv2d.out_channels self; c;
               ModulatedConv2d.kernel_size self; ModulatedConv2d.kernel_size self] ->
    wf w ->
    bn <> 0 ->
    ModulatedConv2d.grouped_conv self bn c hh ww x w
    = ModulatedConv2d.per_sample_conv self bn x w /\
    (forall s : Z,
        ModulatedConv2d.out_channels self <> 0 ->
        ModulatedConv2d.stride_of self = Ok s -> (0 < s)%Z ->
        (0 <= ModulatedConv2d.padding_of self)%Z ->
        ModulatedConv2d.kernel_size self
        <= hh + 2 * Z.to_nat (ModulatedConv2d.padding_of self) ->
        ModulatedConv2d.kernel_size self
        <= ww + 2 * Z.to_nat (ModulatedConv2d.padding_of self) ->
        exists out : tensor T,
          ModulatedConv2d.per_sample_conv self bn x w = Ok out /\
          shape out
          = [bn; ModulatedConv2d.out_channels self;
             (hh + 2 * Z.to_nat (ModulatedConv2d.padding_of self)
              - ModulatedConv2d.kernel_size self) / Z.to_nat s + 1;
             (ww + 2 * Z.to_nat (ModulatedConv2d.padding_of self)
              - ModulatedConv2d.kernel_size self) / Z.to_nat s + 1]).
Proof.
  intros T SC self x w bn c hh ww Hx Hwfx Hw Hwfw Hbn.
  pose proof (grouped_conv_per_sample self Hx Hwfx Hw Hwfw Hbn) as E.
  split; [exact E|].
  intros s Ho Hs Hspos Hp Hkh Hkw. rewrite <- E.
  destruct (grouped_conv_ok self Hx Hwfx Hw Hwfw Hbn Ho Hs Hspos Hp Hkh Hkw)
    as (out & Hout & _ & Hshape).
  exists out. split; assumption.
Qed.

(* ================================================================= *)
(** ** ModulatedConv2d: the whole forward pass *)

Section ForwardFacts.
Context {T : Type} `{Scalar T}.

Lemma demodulation_ok (self : ModulatedConv2d.t T) (w : tensor T)
      (bn c kh kw : nat) :
  shape w = [bn; ModulatedConv2d.out_channels self; c; kh; kw] -> wf w ->
  exists w' : tensor T,
    ModulatedConv2d.demodulation self bn w = Ok w' /\
    shape w' = shape w /\ wf w'.
Proof.
  intros Hw Hwf. destruct (ModulatedConv2d.demodulate self) eqn:Hd.
  - exists (ModulatedConv2d.demodulated w bn (ModulatedConv2d.out_channels self) c kh kw).
    split; [apply demodulation_value; assumption|].
    split; [rewrite Hw; reflexivity | apply wf_tabulate].
  - exists w. unfold ModulatedConv2d.demodulation. rewrite Hd. auto.
Qed.

Lemma noise_forward_ok (self : NoiseInjection.t T) (x : tensor T)
      (noise : option (tensor T)) (g : rng T) (bn c hh ww : nat) :
  shape (NoiseInjection.weight self) = [1; c; 1; 1] ->
  shape x = [bn; c; hh; ww] ->
  (forall n, noise = Some n -> shape n = [bn; 1; hh; ww]) ->
  exists (out : tensor T) (g' : rng T),
    NoiseInjection.forward self x noise g = Ok (out, g') /\
    shape out = [bn; c; hh; ww] /\ wf out.
Proof.
  intros Hw Hx Hn. destruct noise as [n|].
  - eexists _, _. split; [apply forward_with_noise; eauto|].
    split; [reflexivity | apply wf_tabulate].
  - eexists _, _. split; [apply forward_without_noise; eauto|].
    split; [reflexivity | apply wf_tabulate].
Qed.

Lemma forward_ok (self : ModulatedConv2d.t T) (style_dim : nat)
      (x style : tensor T) (noise : option (tensor T)) (g : rng T)
      (bn hh ww : nat) (s : Z) :
  ModulatedConv2d.constructed self style_dim ->
  shape x = [bn; ModulatedConv2d.in_channels self; hh; ww] -> wf x ->
  shape style = [bn; style_dim] ->
  bn <> 0 -> ModulatedConv2d.out_channels self <> 0 ->
  ModulatedConv2d.stride_of self = Ok s -> (0 < s)%Z ->
  (0 <= ModulatedConv2d.padding_of self)%Z ->
  ModulatedConv2d.kernel_size self
  <= hh + 2 * Z.to_nat (ModulatedConv2d.padding_of self) ->
  ModulatedConv2d.kernel_size self
  <= ww + 2 * Z.to_nat (ModulatedConv2d.padding_of self) ->
  (forall n, noise = Some n ->
             shape n
             = [bn; 1;
                (hh + 2 * Z.to_nat (ModulatedConv2d.padding_of self)
                 - ModulatedConv2d.kernel_size self) / Z.to_nat s + 1;
                (ww + 2 * Z.to_nat (ModulatedConv2d.padding_of self)
                 - ModulatedConv2d.kernel_size self) / Z.to_nat s + 1]) ->
  exists (out : tensor T) (g' : rng T),
    ModulatedConv2d.forward self x style noise g = Ok (out, g') /\
    wf out /\
    shape out
    = [bn; ModulatedConv2d.out_channels self;
       (hh + 2 * Z.to_nat (ModulatedConv2d.padding_of self)
        - ModulatedConv2d.kernel_size self) / Z.to_nat s + 1;
       (ww + 2 * Z.to_nat (ModulatedConv2d.padding_of self)
        - ModulatedConv2d.kernel_size self) / Z.to_nat s + 1].
Proof.
  intros Hc Hx Hwfx Hs Hbn Ho Hst Hspos Hp Hkh Hkw Hn.
  unfold ModulatedConv2d.forward. rewrite Hx.
  rewrite modulate_value with (style_dim := style_dim) by assumption.
  cbn [bind].
  destruct (@demodulation_ok self (ModulatedConv2d.modulated self style style_dim bn) bn
              (ModulatedConv2d.in_channels self)
              (ModulatedConv2d.kernel_size self) (ModulatedConv2d.kernel_size self)
              eq_refl (wf_tabulate _ _)) as (w' & -> & Hw' & Hwf').
  cbn [bind].
  destruct (grouped_conv_ok self Hx Hwfx Hw' Hwf' Hbn Ho Hst Hspos Hp Hkh Hkw)
    as (out & -> & Hwfo & Hso).
  cbn [bind].
  destruct (@noise_forward_ok (ModulatedConv2d.noise_injection self) out noise g
              _ _ _ _ (ModulatedConv2d.noise_shape Hc) Hso Hn)
    as (res & g' & Hres & Hsr & Hwfr).
  exists res, g'. auto.
Qed.

Lemma forward_batch_mismatch (self : ModulatedConv2d.t T) (style_dim : nat)
      (x style : tensor T) (noise : option (tensor T)) (g : rng T)
      (bn m hh ww : nat) :
  ModulatedConv2d.constructed self style_dim ->
  shape x = [bn; ModulatedConv2d.in_channels self; hh; ww] ->
  shape style = [m; style_dim] ->
  m <> bn ->
  exists msg, ModulatedConv2d.forward self x style noise g = Raise (RuntimeError msg).
Proof.
  intros Hc Hx Hs Hm. unfold ModulatedConv2d.forward. rewrite Hx.
  unfold ModulatedConv2d.modulate.
  rewrite linear_no_bias with (m := m) (n_in := style_dim)
                              (n_out := ModulatedConv2d.in_channels self)
    by (assumption || apply Hc).
  cbn [bind].
  match goal with
  | |- context [view ?t ?s] =>
      destruct (@view_mismatch _ t s) as (msg & ->)
  end.
  - cbn [data numel]. rewrite length_flat_map_seq.
    pose proof (ModulatedConv2d.fan_in_nonzero Hc) as Hfan.
    assert (ModulatedConv2d.in_channels self <> 0) by (intros E; rewrite E in Hfan; lia).
    nia.
  - exists msg. reflexivity.
Qed.

End ForwardFacts.

Lemma init_constructed {T : Type} `{Torch T}
      (in_channels out_channels kernel_size style_dim : nat) (demodulate : bool)
      (up down padding : Z) (g g' : rng T) (self : ModulatedConv2d.t T) :
  ModulatedConv2d.init in_channels out_channels kernel_size style_dim
                       demodulate up down padding g = Ok (self, g') ->
  ModulatedConv2d.constructed self style_dim /\
  ModulatedConv2d.in_channels self = in_channels /\
  ModulatedConv2d.out_channels self = out_channels /\
  ModulatedConv2d.kernel_size self = kernel_size /\
  ModulatedConv2d.demodulate self = demodulate /\
  ModulatedConv2d.up self = up /\
  ModulatedConv2d.down self = down /\
  ModulatedConv2d.padding self = padding.
Proof.
  unfold ModulatedConv2d.init.
  destruct (in_channels * kernel_size ^ 2 =? 0) eqn:E; [discriminate|].
  apply Nat.eqb_neq in E. cbn [randn draw]. intros Hinit.
  injection Hinit as <- _. split; [|repeat split].
  constructor;
    [ reflexivity
    | unfold wf; cbn; rewrite length_map, length_seq; reflexivity
    | reflexivity | reflexivity | exact E | reflexivity ].
Qed.

Lemma upsampling_layer_is_built :
  ModulatedConv2d.init 1 1 3 1 true 2 1 0 Examples.ones_tape
  = Ok (Examples.upsampling_layer, mkRng (fun _ => 1%R) 10).
Proof. reflexivity. Qed.

Lemma scenario_layer_is_built :
  ModulatedConv2d.init 32 64 3 16 true 1 1 0 Examples.ones_tape
  = Ok (Examples.scenario_layer,
        mkRng (fun _ => 1%R) (64 * (32 * (3 * 3)) + 32 * 16)).
Proof. reflexivity. Qed.

Lemma scenario_layer_constructed :
  ModulatedConv2d.constructed Examples.scenario_layer 16.
Proof. constructor; try reflexivity. simpl. lia. Qed.

Lemma upsampling_layer_constructed :
  ModulatedConv2d.constructed Examples.upsampling_layer 1.
Proof. constructor; try reflexivity. simpl. lia. Qed.

(** C3. A layer configured with in_channels=32, out_channels=64,
    kernel_size=3, style_dim=16, up=1, down=1 and the default padding maps a
    feature map (2, 32, 16, 16) and a style batch (2, 16) to a feature map
    (2, 64, 16, 16), with the noise drawn or supplied as (2, 1, 16, 16). *)
Theorem scenario_output_shape :
  forall (T : Type) (SC : Scalar T) (self : ModulatedConv2d.t T)
         (x style : tensor T) (noise : option (tensor T)) (g : rng T),
    ModulatedConv2d.constructed self 16 ->
    ModulatedConv2d.in_channels self = 32 ->
    ModulatedConv2d.out_channels self = 64 ->
    ModulatedConv2d.kernel_size self = 3 ->
    ModulatedConv2d.up self = 1%Z ->
    ModulatedConv2d.down self = 1%Z ->
    ModulatedConv2d.padding self = 0%Z ->
    shape x = [2; 32; 16; 16] -> wf x ->
    shape style = [2; 16] ->
    (forall n, noise = Some n -> shape n = [2; 1; 16; 16]) ->
    exists (out : tensor T) (g' : rng T),
      ModulatedConv2d.forward self x style noise g = Ok (out, g') /\
      shape out = [2; 64; 16; 16].
Proof.
  intros T SC self x style noise g Hc Hin Hout Hk Hup Hdown Hpad Hx Hwf Hs Hn.
  assert (Hst : ModulatedConv2d.stride_of self = Ok 1%Z).
  { unfold ModulatedConv2d.stride_of. rewrite Hup, Hdown. reflexivity. }
  assert (Hp : ModulatedConv2d.padding_of self = 1%Z).
  { unfold ModulatedConv2d.padding_of. rewrite Hpad, Hk. reflexivity. }
  destruct (@forward_ok T SC self 16 x style noise g 2 16 16 1%Z) as (out & g' & Hf & _ & Hsh);
    rewrite ?Hp, ?Hk, ?Hin, ?Hout; try assumption; try lia; try discriminate.
  exists out, g'. split; [assumption|].
  rewrite Hsh, Hp, Hk, Hout. reflexivity.
Qed.

(** C9, as the code has it.  For a feature map (N, C_in, H, W) that has the
    layer's [in_channels] channels and a style batch (M, style_dim) with
    [M <> N], [forward] raises a shape error (from [view], line 251);
    nothing is broadcast. *)
Theorem batch_mismatch_is_rejected :
  forall (T : Type) (SC : Scalar T) (self : ModulatedConv2d.t T) (style_dim : nat)
         (x style : tensor T) (noise : option (tensor T)) (g : rng T)
         (bn m hh ww : nat),
    ModulatedConv2d.constructed self style_dim ->
    shape x = [bn; ModulatedConv2d.in_channels self; hh; ww] ->
    shape style = [m; style_dim] ->
    m <> bn ->
    exists msg,
      ModulatedConv2d.forward self x style noise g = Raise (RuntimeError msg).
Proof.
  intros T SC self style_dim x style noise g bn m hh ww Hc Hx Hs Hm.
  apply forward_batch_mismatch with (style_dim := style_dim) (bn := bn) (m := m)
                                    (hh := hh) (ww := ww); assumption.
Qed.

(** C9 fails as stated: the layer [ModulatedConv2d(1, 1, 1, 1)] takes a
    feature map (1, 3, 1, 1) of batch size 1 together with a style batch
    (3, 1) of batch size 3 and returns a feature map (1, 1, 1, 1).  The three
    projected styles are viewed as the three channels of the one sample, and
    the single input channel of the kernel is broadcast against them. *)
Lemma batch_mismatch_passes_on_other_channel_count :
  ModulatedConv2d.constructed Examples.unit_layer 1 /\
  shape Examples.three_channel_input = [1; 3; 1; 1] /\
  shape Examples.three_styles = [3; 1] /\
  (exists (out : tensor R) (g' : rng R),
      ModulatedConv2d.forward Examples.unit_layer Examples.three_channel_input
        Examples.three_styles None Examples.ones_tape = Ok (out, g') /\
      shape out = [1; 1; 1; 1]) /\
  ~ (exists e,
        ModulatedConv2d.forward Examples.unit_layer Examples.three_channel_input
          Examples.three_styles None Examples.ones_tape = Raise e).
Proof.
  split; [apply unit_layer_constructed|].
  split; [reflexivity|]. split; [reflexivity|]. split.
  - eexists _, _. split; reflexivity.
  - intros [e He]. discriminate He.
Qed.

(** C4 at a failing input.  With up=2, down=1, kernel_size=3 and the default
    padding the stride comes out as 2, and a feature map (1, 1, 16, 16) is
    mapped to one of shape (1, 1, 8, 8): halved, not doubled. *)
Theorem up2_halves_the_feature_map :
  ModulatedConv2d.stride_of Examples.upsampling_layer = Ok 2%Z /\
  exists (out : tensor R) (g' : rng R),
    ModulatedConv2d.forward Examples.upsampling_layer
      (zeros [1; 1; 16; 16]) (zeros [1; 1]) None Examples.ones_tape = Ok (out, g') /\
    shape out = [1; 1; 8; 8].
Proof.
  assert (Hst : ModulatedConv2d.stride_of Examples.upsampling_layer = Ok 2%Z)
    by (vm_compute; reflexivity).
  split; [exact Hst|].
  destruct (@forward_ok R R_Scalar Examples.upsampling_layer 1
              (zeros [1; 1; 16; 16]) (zeros [1; 1]) None Examples.ones_tape
              1 16 16 2%Z) as (out & g' & Hf & _ & Hsh);
    try (exact upsampling_layer_constructed); try reflexivity;
    try discriminate; try lia.
  - simpl. lia.
  - simpl. lia.
  - exists out, g'. split; [assumption|]. rewrite Hsh. reflexivity.
Qed.

(* ================================================================= *)
(** ** FullyConnectedLayer: construction *)

Section FullyConnectedFacts.
Context {T : Type} `{Torch T}.

Lemma get_activation_fn_supported (activation : string) :
  (exists f, FullyConnectedLayer.get_activation_fn activation = Ok f) <->
  In activation ["linear"; "relu"; "leaky_relu"; "elu"; "gelu"; "swish"].
Proof.
  unfold FullyConnectedLayer.get_activation_fn.
  destruct (String.eqb_spec activation "relu") as [->|N1];
    [split; [intros _; simpl; tauto | intros _; eexists; reflexivity]|].
  destruct (String.eqb_spec activation "leaky_relu") as [->|N2];
    [split; [intros _; simpl; tauto | intros _; eexists; reflexivity]|].
  destruct (String.eqb_spec activation "elu") as [->|N3];
    [split; [intros _; simpl; tauto | intros _; eexists; reflexivity]|].
  destruct (String.eqb_spec activation "gelu") as [->|N4];
    [split; [intros _; simpl; tauto | intros _; eexists; reflexivity]|].
  destruct (String.eqb_spec activation "swish") as [->|N5];
    [split; [intros _; simpl; tauto | intros _; eexists; reflexivity]|].
  destruct (String.eqb_spec activation "linear") as [->|N6];
    [split; [intros _; simpl; tauto | intros _; eexists; reflexivity]|].
  split.
  - intros [f Hf]. discriminate.
  - simpl. intros [E|[E|[E|[E|[E|[E|[]]]]]]]; congruence.
Qed.

Lemma get_activation_fn_unsupported (activation : string) :
  ~ In activation ["linear"; "relu"; "leaky_relu"; "elu"; "gelu"; "swish"] ->
  FullyConnectedLayer.get_activation_fn activation
  = Raise (ValueError ("Unsupported activation function: " ++ activation)).
Proof.
  intros Hn. unfold FullyConnectedLayer.get_activation_fn.
  repeat match goal with
         | |- context [String.eqb activation ?s] =>
             destruct (String.eqb_spec activation s) as [->|?];
             [exfalso; apply Hn; simpl; tauto|]
         end.
  reflexivity.
Qed.

(** The weight initialisers on the freshly allocated (out, in) weight:
    only [xavier] on a weight without rows and columns raises. *)
Lemma weight_init_cases (n_out n_in : nat) (weight_init : string) (g : rng T) :
  In weight_init ["xavier"; "kaiming"; "orthogonal"] ->
  (weight_init = "xavier" /\ n_in = 0 /\ n_out = 0 /\
   (if (weight_init =? "xavier")%string
    then xavier_uniform_ (zeros [n_out; n_in]) g
    else if (weight_init =? "kaiming")%string
    then kaiming_uniform_ (zeros [n_out; n_in]) g
    else if (weight_init =? "orthogonal")%string
    then orthogonal_ (zeros [n_out; n_in]) g
    else Raise (ValueError ("Unsupported weight initialisation: " ++ weight_init)%string))
   = Raise (ZeroDivisionError "float division by zero")) \/
  ((weight_init <> "xavier" \/ n_in <> 0 \/ n_out <> 0) /\
   exists w g1,
     (if (weight_init =? "xavier")%string
      then xavier_uniform_ (zeros [n_out; n_in]) g
      else if (weight_init =? "kaiming")%string
      then kaiming_uniform_ (zeros [n_out; n_in]) g
      else if (weight_init =? "orthogonal")%string
      then orthogonal_ (zeros [n_out; n_in]) g
      else Raise (ValueError ("Unsupported weight initialisation: " ++ weight_init)%string))
     = Ok (w, g1) /\ shape w = [n_out; n_in]).
Proof.
  intros Hin. simpl in Hin. destruct Hin as [<-|[<-|[<-|[]]]].
  - cbn [String.eqb Ascii.eqb Bool.eqb]. unfold xavier_uniform_, calculate_fan_in_and_fan_out.
    unfold zeros, full; cbn [shape bind numel]. rewrite !Nat.mul_1_r.
    destruct (n_in + n_out =? 0) eqn:E.
    + apply Nat.eqb_eq in E. left. repeat split; lia.
    + apply Nat.eqb_neq in E. right. split; [lia|].
      eexists _, _. split; reflexivity.
  - right. split; [left; discriminate|].
    cbn [String.eqb Ascii.eqb Bool.eqb]. unfold kaiming_uniform_, calculate_fan_in_and_fan_out.
    unfold zeros, full; cbn [shape bind].
    destruct (existsb (Nat.eqb 0) [n_out; n_in]);
      eexists _, _; split; reflexivity.
  - right. split; [left; discriminate|].
    cbn [String.eqb Ascii.eqb Bool.eqb]. unfold orthogonal_.
    unfold zeros, full; cbn [shape].
    destruct (numel [n_out; n_in] =? 0);
      eexists _, _; split; reflexivity.
Qed.

(** [reset_parameters] on the freshly allocated (out, in) weight. *)
Lemma reset_parameters_supported (n_out n_in : nat) (bias : option (tensor T))
      (weight_init : string) (g : rng T) :
  In weight_init ["xavier"; "kaiming"; "orthogonal"] ->
  (n_in = 0 /\ (bias <> None \/ (weight_init = "xavier" /\ n_out = 0)) /\
   FullyConnectedLayer.reset_parameters (zeros [n_out; n_in]) bias weight_init g
   = Raise (ZeroDivisionError "float division by zero")) \/
  ((n_in <> 0 \/ (bias = None /\ (weight_init <> "xavier" \/ n_out <> 0))) /\
   exists r, FullyConnectedLayer.reset_parameters (zeros [n_out; n_in]) bias
               weight_init g = Ok r).
Proof.
  intros Hin. unfold FullyConnectedLayer.reset_parameters.
  destruct (@weight_init_cases n_out n_in weight_init g Hin)
    as [(Hx & Hi & Ho & ->)|(Hc & w & g1 & -> & Hsw)]; cbn [bind].
  - left. split; [assumption|]. split; [right; split; assumption | reflexivity].
  - destruct bias as [b|].
    + unfold calculate_fan_in_and_fan_out. rewrite Hsw. cbn [bind numel].
      rewrite Nat.mul_1_r. destruct (n_in =? 0) eqn:E.
      * left. apply Nat.eqb_eq in E. split; [assumption|].
        split; [left; discriminate | reflexivity].
      * right. apply Nat.eqb_neq in E. split; [left; assumption|].
        cbn. eexists. reflexivity.
    + right. split; [|eexists; reflexivity].
      destruct Hc as [Hc|[Hc|Hc]]; [right | left | right]; tauto.
Qed.

Lemma reset_parameters_unsupported (w : tensor T) (bias : option (tensor T))
      (weight_init : string) (g : rng T) :
  ~ In weight_init ["xavier"; "kaiming"; "orthogonal"] ->
  FullyConnectedLayer.reset_parameters w bias weight_init g
  = Raise (ValueError ("Unsupported weight initialisation: " ++ weight_init)).
Proof.
  intros Hn. unfold FullyConnectedLayer.reset_parameters.
  repeat match goal with
         | |- context [String.eqb weight_init ?s] =>
             destruct (String.eqb_spec weight_init s) as [->|?];
             [exfalso; apply Hn; simpl; tauto|]
         end.
  reflexivity.
Qed.

Lemma in_dec_string (a : string) (l : list string) : In a l \/ ~ In a l.
Proof. destruct (in_dec string_dec a l); [left | right]; assumption. Qed.

(** Construction with an unsupported name. *)
Lemma init_unsupported (in_features out_features : nat) (bias : bool)
      (activation weight_init : string) (dropout : Q)
      (batch_norm layer_norm : bool) (g : rng T) :
  ~ In activation ["linear"; "relu"; "leaky_relu"; "elu"; "gelu"; "swish"] \/
  ~ In weight_init ["xavier"; "kaiming"; "orthogonal"] ->
  exists e,
    FullyConnectedLayer.init in_features out_features bias activation
      weight_init dropout batch_norm layer_norm g = Raise e /\
    (in_features <> 0 \/ ~ In weight_init ["xavier"; "kaiming"; "orthogonal"] ->
     is_ValueError e = true).
Proof.
  intros Hbad. unfold FullyConnectedLayer.init.
  destruct (Qle_bool dropout 0);
    [|destruct (Qle_bool dropout 1);
      [|eexists; split; [reflexivity | intros _; reflexivity]]];
    cbn [bind].
  all: destruct (in_dec_string weight_init ["xavier"; "kaiming"; "orthogonal"])
      as [Hwi|Hwi];
    [|rewrite reset_parameters_unsupported by assumption;
      eexists; split; [reflexivity | intros _; reflexivity]].
  all: destruct Hbad as [Hact|Hbad]; [|contradiction].
  all: match goal with
       | |- context [FullyConnectedLayer.reset_parameters ?w ?b ?wi ?g0] =>
           destruct (@reset_parameters_supported out_features in_features b wi g0 Hwi)
             as [(Hz & Hb & ->)|(Hok & r & ->)]
       end; cbn [bind].
  all: try (eexists; split; [reflexivity|];
            intros [Hnz|Hnw]; contradiction).
  all: destruct r as [[w b] g1]; cbn [bind];
    rewrite get_activation_fn_unsupported by assumption;
    eexists; split; [reflexivity | intros _; reflexivity].
Qed.

(** Construction with supported names and otherwise valid arguments. *)
Lemma init_supported (in_features out_features : nat) (bias : bool)
      (activation weight_init : string) (dropout : Q)
      (batch_norm layer_norm : bool) (g : rng T) :
  in_features <> 0 -> Qle_bool dropout 1 = true ->
  In activation ["linear"; "relu"; "leaky_relu"; "elu"; "gelu"; "swish"] ->
  In weight_init ["xavier"; "kaiming"; "orthogonal"] ->
  exists r,
    FullyConnectedLayer.init in_features out_features bias activation
      weight_init dropout batch_norm layer_norm g = Ok r.
Proof.
  intros Hnz Hd Hact Hwi. unfold FullyConnectedLayer.init. rewrite Hd.
  apply get_activation_fn_supported in Hact as [f Hf].
  destruct (Qle_bool dropout 0); cbn [bind].
  all: match goal with
       | |- context [FullyConnectedLayer.reset_parameters ?w ?b ?wi ?g0] =>
           destruct (@reset_parameters_supported out_features in_features b wi g0 Hwi)
             as [(Hz & _)|(Hok & r & ->)]; [contradiction|]
       end.
  all: destruct r as [[w b] g1]; cbn [bind]; rewrite Hf; cbn [bind];
    eexists; reflexivity.
Qed.

End FullyConnectedFacts.

(** C7. Constructing a [FullyConnectedLayer] with an activation or a
    weight initialisation outside the supported names raises, so no layer
    object exists on which [forward] could be called; the error is a
    [ValueError] whenever [in_features] is not zero or the initialisation
    name is the unsupported one (with [in_features = 0] and a supported
    initialisation, the division by the fan-in of line 77, or the one by
    the sum of the fans inside [xavier_uniform_] of line 67, can come first).
    With a non-zero [in_features] and a dropout rate of at most 1,
    construction succeeds exactly for the activations linear, relu,
    leaky_relu, elu, gelu, swish and the initialisations xavier, kaiming,
    orthogonal. *)
Theorem unsupported_names_fail_at_construction :
  forall (T : Type) (SC : Scalar T) (L : Torch)
         (in_features out_features : nat) (bias : bool)
         (activation weight_init : string) (dropout : Q)
         (batch_norm layer_norm : bool) (g : rng T),
    (~ In activation ["linear"; "relu"; "leaky_relu"; "elu"; "gelu"; "swish"] \/
     ~ In weight_init ["xavier"; "kaiming"; "orthogonal"] ->
     exists e,
       FullyConnectedLayer.init in_features out_features bias activation
         weight_init dropout batch_norm layer_norm g = Raise e /\
       (in_features <> 0 \/ ~ In weight_init ["xavier"; "kaiming"; "orthogonal"] ->
        is_ValueError e = true)) /\
    (in_features <> 0 -> Qle_bool dropout 1 = true ->
     ((exists r,
          FullyConnectedLayer.init in_features out_features bias activation
            weight_init dropout batch_norm layer_norm g = Ok r) <->
      In activation ["linear"; "relu"; "leaky_relu"; "elu"; "gelu"; "swish"] /\
      In weight_init ["xavier"; "kaiming"; "orthogonal"])).
Proof.
  intros T SC L in_features out_features bias activation weight_init dropout
         batch_norm layer_norm g.
  split; [apply init_unsupported|].
  intros Hnz Hd. split.
  - intros [r Hr].
    destruct (in_dec_string activation
                ["linear"; "relu"; "leaky_relu"; "elu"; "gelu"; "swish"]) as [Ha|Ha];
      destruct (in_dec_string weight_init ["xavier"; "kaiming"; "orthogonal"])
        as [Hw|Hw]; [split; assumption | | | ].
    all: destruct (@init_unsupported T SC L in_features out_features bias activation
                     weight_init dropout batch_norm layer_norm g) as (e & He & _);
      [tauto | rewrite He in Hr; discriminate].
  - intros [Ha Hw]. apply init_supported; assumption.
Qed.

(* ================================================================= *)
(** ** MappingNetwork: construction without layers *)

(** C8, as the code has it.  Constructing a [MappingNetwork] with
    [num_layers < 1] does not raise: the loop body never runs, the layer
    stack is empty, and [forward] returns the latent plus the label
    embedding with no dense layer applied. *)
Theorem mapping_network_without_layers :
  forall (T : Type) (SC : Scalar T) (L : Torch) (z_dim w_dim : nat)
         (num_layers : Z) (label_dim : nat) (dropout : Q) (g : rng T),
    (num_layers < 1)%Z ->
    exists (self : MappingNetwork.t T) (g' : rng T),
      MappingNetwork.init z_dim w_dim num_layers label_dim dropout g = Ok (self, g') /\
      MappingNetwork.net self = [] /\
      shape (MappingNetwork.label_embedding self) = [label_dim; z_dim] /\
      forall (z : tensor T) (labels : list nat) (gz : rng T),
        MappingNetwork.forward self z labels gz
        = (embedded_labels <-
             MappingNetwork.embedding (MappingNetwork.label_embedding self) labels ;;
           z_prime <- add z embedded_labels ;;
           Ok (z_prime, gz)).
Proof.
  intros T SC L z_dim w_dim num_layers label_dim dropout g Hn.
  unfold MappingNetwork.init. cbn [randn draw].
  replace (Z.to_nat num_layers) with 0 by lia. cbn [seq MappingNetwork.build_layers bind].
  eexists _, _. split; [reflexivity|]. split; [reflexivity|]. split; [reflexivity|].
  intros z labels gz. reflexivity.
Qed.

(** C8 fails as stated: [MappingNetwork(8, 16, 0, 4)] is constructed without
    any error. *)
Lemma mapping_network_zero_layers_is_built :
  (exists (self : MappingNetwork.t R) (g' : rng R),
      MappingNetwork.init 8 16 0 4 (1 # 10) Examples.ones_tape = Ok (self, g') /\
      MappingNetwork.net self = []) /\
  ~ (exists e, MappingNetwork.init 8 16 0 4 (1 # 10) Examples.ones_tape = Raise e).
Proof.
  split.
  - eexists _, _. split; reflexivity.
  - intros [e He]. discriminate He.
Qed.

(* ================================================================= *)
(** ** The statements at concrete inputs *)

Lemma grouped_conv_is_per_sample_conv_witness :
  ModulatedConv2d.grouped_conv Examples.unit_layer 2 1 1 1
    Examples.pair_input Examples.pair_kernels
  = ModulatedConv2d.per_sample_conv Examples.unit_layer 2
      Examples.pair_input Examples.pair_kernels.
Proof.
  refine (proj1 (@grouped_conv_is_per_sample_conv R R_Scalar Examples.unit_layer
                   Examples.pair_input Examples.pair_kernels 2 1 1 1 _ _ _ _ _)).
  - reflexivity.
  - reflexivity.
  - reflexivity.
  - reflexivity.
  - discriminate.
Defined.

Lemma demodulated_kernel_energy_witness :
  exists w w' : tensor R,
    ModulatedConv2d.modulate Examples.unit_layer 1 1 Examples.unit_style = Ok w /\
    ModulatedConv2d.demodulation Examples.unit_layer 1 w = Ok w' /\
    forall n o, n < 1 -> o < 1 ->
      ModulatedConv2d.energy w' n o
      = (ModulatedConv2d.energy w n o
         / (ModulatedConv2d.energy w n o + / 100000000))%R.
Proof.
  refine (@demodulated_kernel_energy Examples.unit_layer Examples.unit_style 1 1 _ _ _).
  - constructor; try reflexivity. simpl. lia.
  - reflexivity.
  - reflexivity.
Defined.

Lemma scenario_output_shape_witness :
  exists (out : tensor R) (g' : rng R),
    ModulatedConv2d.forward Examples.scenario_layer (zeros [2; 32; 16; 16])
      (zeros [2; 16]) None Examples.ones_tape = Ok (out, g') /\
    shape out = [2; 64; 16; 16].
Proof.
  refine (@scenario_output_shape R R_Scalar Examples.scenario_layer
            (zeros [2; 32; 16; 16]) (zeros [2; 16]) None Examples.ones_tape
            _ _ _ _ _ _ _ _ _ _ _).
  - constructor; try reflexivity. simpl. lia.
  - reflexivity.
  - reflexivity.
  - reflexivity.
  - reflexivity.
  - reflexivity.
  - reflexivity.
  - reflexivity.
  - reflexivity.
  - reflexivity.
  - intros n Hn. discriminate Hn.
Defined.

Lemma zero_style_modulated_kernel_is_zero_witness :
  exists w : tensor R,
    ModulatedConv2d.modulate Examples.unit_layer 1 1 Examples.zero_style = Ok w /\
    Forall (fun v => v = 0%R) (data w).
Proof.
  destruct (@zero_style_modulated_kernel_is_zero Examples.unit_layer
              Examples.zero_style 1 1) as (w & Hm & _ & _ & Hz).
  - constructor; try reflexivity. simpl. lia.
  - reflexivity.
  - repeat constructor.
  - exists w. split; assumption.
Defined.

Lemma noise_injection_supplied_noise_witness :
  exists out : tensor R,
    (forall g : rng R,
        NoiseInjection.forward Examples.noise_layer Examples.row_input
          (Some Examples.row_noise) g = Ok (out, g)) /\
    shape out = [1; 1; 1; 2].
Proof.
  destruct (@noise_injection_supplied_noise R R_Scalar Examples.noise_layer
              Examples.row_input Examples.row_noise 1 1 1 2)
    as (out & Hf & Hs & _).
  - reflexivity.
  - reflexivity.
  - reflexivity.
  - exists out. split; assumption.
Defined.

Lemma unsupported_names_fail_at_construction_witness :
  exists e,
    FullyConnectedLayer.init (T := R) 8 16 true "tanh" "xavier" 0 false false
      Examples.ones_tape = Raise e /\
    is_ValueError e = true.
Proof.
  destruct (proj1 (@unsupported_names_fail_at_construction R R_Scalar inert_Torch
                     8 16 true "tanh" "xavier" 0 false false Examples.ones_tape))
    as (e & He & Hv).
  - left. simpl. intuition discriminate.
  - exists e. split; [assumption|]. apply Hv. left. discriminate.
Defined.

Lemma mapping_network_without_layers_witness :
  exists (self : MappingNetwork.t R) (g' : rng R),
    MappingNetwork.init 8 16 (-1) 4 (1 # 10) Examples.ones_tape = Ok (self, g') /\
    MappingNetwork.net self = [].
Proof.
  destruct (@mapping_network_without_layers R R_Scalar inert_Torch 8 16 (-1)%Z 4
              (1 # 10) Examples.ones_tape) as (self & g' & Hi & Hn & _).
  - reflexivity.
  - exists self, g'. split; assumption.
Defined.

Lemma batch_mismatch_is_rejected_witness :
  exists msg,
    ModulatedConv2d.forward Examples.scenario_layer (zeros [2; 32; 16; 16])
      (zeros [3; 16]) None Examples.ones_tape = Raise (RuntimeError msg).
Proof.
  refine (@batch_mismatch_is_rejected R R_Scalar Examples.scenario_layer 16
            (zeros [2; 32; 16; 16]) (zeros [3; 16]) None Examples.ones_tape
            2 3 16 16 _ _ _ _).
  - constructor; try reflexivity. simpl. lia.
  - reflexivity.
  - reflexivity.
  - discriminate.
Defined.

Lemma fresh_noise_injection_is_identity_witness :
  exists g' : rng R,
    NoiseInjection.forward (NoiseInjection.init 1) Examples.row_input None
      Examples.ones_tape = Ok (Examples.row_input, g').
Proof.
  destruct (@fresh_noise_injection_is_identity 1 Examples.row_input None
              Examples.ones_tape 1 1 2) as (_ & _ & Hf).
  - reflexivity.
  - reflexivity.
  - intros n Hn. discriminate Hn.
  - exact Hf.
Defined.

(* ================================================================= *)
(** * Further properties of the code *)

(** ** ModulatedConv2d: modulation and demodulation entry by entry *)

(** X1. Lines 249-253: the modulated kernel has shape
    (N, C_out, C_in, k, k) and its entry (n, o, c, u, v) is
    [scale * weight[o, c, u, v]] times the projection
    [sum_j style[n, j] * modulation[c, j]] of row [n] of the style. *)
Theorem modulated_kernel_entries :
  forall (T : Type) (SC : Scalar T) (self : ModulatedConv2d.t T)
         (style : tensor T) (style_dim batch : nat),
    ModulatedConv2d.constructed self style_dim ->
    shape style = [batch; style_dim] ->
    exists w : tensor T,
      ModulatedConv2d.modulate self batch (ModulatedConv2d.in_channels self) style
      = Ok w /\
      shape w = [batch; ModulatedConv2d.out_channels self;
                 ModulatedConv2d.in_channels self;
                 ModulatedConv2d.kernel_size self; ModulatedConv2d.kernel_size self] /\
      wf w /\
      forall n o c u v,
        n < batch -> o < ModulatedConv2d.out_channels self ->
        c < ModulatedConv2d.in_channels self ->
        u < ModulatedConv2d.kernel_size self ->
        v < ModulatedConv2d.kernel_size self ->
        get w [n; o; c; u; v]
        = s_mul (s_mul (ModulatedConv2d.scale self)
                       (get (ModulatedConv2d.weight self) [o; c; u; v]))
                (sum_list
                   (map (fun j => s_mul (get style [n; j])
                                        (get (ModulatedConv2d.modulation self) [c; j]))
                        (seq 0 style_dim))).
Proof.
  intros T SC self style style_dim batch Hc Hs.
  exists (ModulatedConv2d.modulated self style style_dim batch).
  split; [apply modulate_value; assumption|].
  split; [reflexivity|]. split; [apply wf_tabulate|].
  intros n o c u v Hn Ho Hc' Hu Hv. unfold ModulatedConv2d.modulated.
  rewrite get_tabulate by solve_in_indices.
  unfold ModulatedConv2d.projected_style. do 2 f_equal.
  apply map_ext. intros j. unfold get.
  rewrite Hs, (ModulatedConv2d.modulation_shape Hc). cbn [offset numel].
  f_equal; f_equal; lia.
Qed.

(** X2. Lines 255-260: with [demodulate] on, every entry of kernel slice
    (n, o) is multiplied by [rsqrt(E + 1e-8)], [E] the sum of squares of
    that slice; with [demodulate] off the kernel is returned as it is. *)
Theorem demodulation_scales_each_slice :
  forall (T : Type) (SC : Scalar T) (self : ModulatedConv2d.t T) (w : tensor T)
         (bn c kh kw : nat),
    shape w = [bn; ModulatedConv2d.out_channels self; c; kh; kw] -> wf w ->
    exists w' : tensor T,
      ModulatedConv2d.demodulation self bn w = Ok w' /\
      shape w' = shape w /\
      forall n o ci u v,
        n < bn -> o < ModulatedConv2d.out_channels self ->
        ci < c -> u < kh -> v < kw ->
        get w' [n; o; ci; u; v]
        = if ModulatedConv2d.demodulate self
          then s_mul (get w [n; o; ci; u; v])
                     (s_rsqrt (s_add (ModulatedConv2d.energy w n o) s_eps))
          else get w [n; o; ci; u; v].
Proof.
  intros T SC self w bn c kh kw Hw Hwf.
  destruct (ModulatedConv2d.demodulate self) eqn:Hd.
  - exists (ModulatedConv2d.demodulated w bn (ModulatedConv2d.out_channels self) c kh kw).
    split; [apply demodulation_value; assumption|].
    split; [rewrite Hw; reflexivity|].
    intros n o ci u v Hn Ho Hci Hu Hv. unfold ModulatedConv2d.demodulated.
    rewrite get_tabulate by solve_in_indices. reflexivity.
  - exists w. unfold ModulatedConv2d.demodulation. rewrite Hd.
    split; [reflexivity|]. split; reflexivity.
Qed.

(** X3. After demodulation the sum of squares of every kernel slice lies
    in the interval from 0 (included) to 1 (excluded). *)
Theorem demodulated_energy_below_one :
  forall (self : ModulatedConv2d.t R) (w : tensor R) (bn c kh kw : nat),
    ModulatedConv2d.demodulate self = true ->
    shape w = [bn; ModulatedConv2d.out_channels self; c; kh; kw] -> wf w ->
    exists w' : tensor R,
      ModulatedConv2d.demodulation self bn w = Ok w' /\
      forall n o, n < bn -> o < ModulatedConv2d.out_channels self ->
        (0 <= ModulatedConv2d.energy w' n o < 1)%R.
Proof.
  intros self w bn c kh kw Hd Hw Hwf.
  exists (ModulatedConv2d.demodulated w bn (ModulatedConv2d.out_channels self) c kh kw).
  split; [apply demodulation_value; assumption|].
  intros n o Hn Ho. rewrite energy_demodulated by assumption.
  pose proof (energy_nonneg w n o) as He. simpl.
  set (e := ModulatedConv2d.energy w n o) in *.
  assert (Hpos : (0 < e + / 100000000)%R) by lra.
  split.
  - apply Rmult_le_pos; [assumption|]. left. apply Rinv_0_lt_compat. assumption.
  - apply Rmult_lt_reg_r with (r := (e + / 100000000)%R); [assumption|].
    unfold Rdiv. rewrite Rmult_assoc, Rinv_l by lra. lra.
Qed.

(** ** ModulatedConv2d: stride, padding and the output extent *)

Lemma stride_roundtrip (u : Z) :
  (2 <= u <= 92)%Z ->
  (stride <- PyFloat.int_truediv 1 u ;;
   r <- PyFloat.truediv (PyFloat.of_int 1) stride ;;
   PyFloat.to_int r) = Ok u.
Proof.
  intros Hu.
  assert (Hall :
            forallb (fun n =>
                       match (stride <- PyFloat.int_truediv 1 (Z.of_nat n + 2) ;;
                              r <- PyFloat.truediv (PyFloat.of_int 1) stride ;;
                              PyFloat.to_int r) with
                       | Ok v => (v =? Z.of_nat n + 2)%Z
                       | Raise _ => false
                       end) (seq 0 91) = true) by (vm_compute; reflexivity).
  rewrite forallb_forall in Hall.
  specialize (Hall (Z.to_nat (u - 2))).
  replace (Z.of_nat (Z.to_nat (u - 2)) + 2)%Z with u in Hall by lia.
  destruct (stride <- PyFloat.int_truediv 1 u ;;
            r <- PyFloat.truediv (PyFloat.of_int 1) stride ;;
            PyFloat.to_int r) as [v|e].
  - f_equal. apply Z.eqb_eq. apply Hall. apply in_seq. lia.
  - discriminate Hall. apply in_seq. lia.
Qed.

(** X6. Lines 269-271: the stride is [down] when [up] is at most 1; for
    [up] from 2 to 92 the float round trip [int(1 / (1 / up))] gives back
    [up]; for [up = 93] it gives 92. *)
Theorem stride_of_values :
  forall (T : Type) (self : ModulatedConv2d.t T),
    ((ModulatedConv2d.up self <= 1)%Z ->
     ModulatedConv2d.stride_of self = Ok (ModulatedConv2d.down self)) /\
    ((2 <= ModulatedConv2d.up self <= 92)%Z ->
     ModulatedConv2d.stride_of self = Ok (ModulatedConv2d.up self)) /\
    (ModulatedConv2d.up self = 93%Z ->
     ModulatedConv2d.stride_of self = Ok 92%Z).
Proof.
  intros T self. unfold ModulatedConv2d.stride_of. repeat split.
  - intros Hu. replace (ModulatedConv2d.up self >? 1)%Z with false
      by (symmetry; rewrite Z.gtb_ltb; apply Z.ltb_ge; assumption). reflexivity.
  - intros Hu. replace (ModulatedConv2d.up self >? 1)%Z with true
      by (symmetry; rewrite Z.gtb_ltb; apply Z.ltb_lt; lia).
    apply stride_roundtrip. assumption.
  - intros ->. vm_compute. reflexivity.
Qed.


Lemma half_of_odd (j : nat) : (2 * j + 1) / 2 = j.
Proof.
  rewrite Nat.add_comm, Nat.mul_comm, Nat.div_add by lia. reflexivity.
Qed.

(** X5. With the default padding ([padding = 0], so [k // 2]), an odd
    kernel, no upsampling and a positive [down], a non-empty feature map
    (N, C_in, H, W) comes out as (N, C_out, (H - 1) / down + 1,
    (W - 1) / down + 1): the same extent for [down = 1]. *)
Theorem default_padding_output_extent :
  forall (T : Type) (SC : Scalar T) (self : ModulatedConv2d.t T)
         (style_dim : nat) (x style : tensor T) (g : rng T)
         (bn hh ww j : nat),
    ModulatedConv2d.constructed self style_dim ->
    ModulatedConv2d.padding self = 0%Z ->
    ModulatedConv2d.kernel_size self = 2 * j + 1 ->
    (ModulatedConv2d.up self <= 1)%Z ->
    (0 < ModulatedConv2d.down self)%Z ->
    shape x = [bn; ModulatedConv2d.in_channels self; hh; ww] -> wf x ->
    shape style = [bn; style_dim] ->
    bn <> 0 -> ModulatedConv2d.out_channels self <> 0 ->
    hh <> 0 -> ww <> 0 ->
    exists (out : tensor T) (g' : rng T),
      ModulatedConv2d.forward self x style None g = Ok (out, g') /\
      shape out
      = [bn; ModulatedConv2d.out_channels self;
         (hh - 1) / Z.to_nat (ModulatedConv2d.down self) + 1;
         (ww - 1) / Z.to_nat (ModulatedConv2d.down self) + 1].
Proof.
  intros T SC self style_dim x style g bn hh ww j
         Hc Hpad Hk Hup Hdown Hx Hwf Hs Hbn Ho Hh Hw.
  assert (Hp : ModulatedConv2d.padding_of self = Z.of_nat j).
  { unfold ModulatedConv2d.padding_of. rewrite Hpad, Hk, half_of_odd. reflexivity. }
  assert (Hst : ModulatedConv2d.stride_of self = Ok (ModulatedConv2d.down self)).
  { unfold ModulatedConv2d.stride_of.
    replace (ModulatedConv2d.up self >? 1)%Z with false
      by (symmetry; rewrite Z.gtb_ltb; apply Z.ltb_ge; assumption). reflexivity. }
  destruct (@forward_ok T SC self style_dim x style None g bn hh ww
              (ModulatedConv2d.down self)) as (out & g' & Hf & _ & Hsh);
    rewrite ?Hp, ?Hk, ?Nat2Z.id; try assumption; try lia; try discriminate.
  exists out, g'. split; [assumption|].
  rewrite Hsh, Hp, Hk, Nat2Z.id.
  replace (hh + 2 * j - (2 * j + 1)) with (hh - 1) by lia.
  replace (ww + 2 * j - (2 * j + 1)) with (ww - 1) by lia.
  reflexivity.
Qed.

(** ** ModulatedConv2d: calls that are refused *)

Lemma conv2d_rejects {T : Type} `{Scalar T} (x w : tensor T) (p s : Z) (groups : nat)
      (bn c hh ww o cg kh kw : nat) :
  shape x = [bn; c; hh; ww] -> shape w = [o; cg; kh; kw] ->
  (s <= 0)%Z \/ (p < 0)%Z \/ hh + 2 * Z.to_nat p < kh \/ ww + 2 * Z.to_nat p < kw ->
  exists msg, conv2d x w p s groups = Raise (RuntimeError msg).
Proof.
  intros Hx Hw Hbad. unfold conv2d. rewrite Hx, Hw.
  destruct (s <=? 0)%Z eqn:Es; [eexists; reflexivity|].
  destruct (p <? 0)%Z eqn:Ep; [eexists; reflexivity|].
  destruct (groups =? 0); [eexists; reflexivity|].
  destruct (negb (c =? cg * groups)); [eexists; reflexivity|].
  destruct (o <? groups); [eexists; reflexivity|].
  destruct (negb (o mod groups =? 0)); [eexists; reflexivity|].
  cbv zeta.
  destruct ((hh + 2 * Z.to_nat p <? kh) || (ww + 2 * Z.to_nat p <? kw)) eqn:Ek;
    [eexists; reflexivity|].
  exfalso. apply Z.leb_gt in Es. apply Z.ltb_ge in Ep.
  apply orb_false_iff in Ek as [Ek1 Ek2].
  apply Nat.ltb_ge in Ek1. apply Nat.ltb_ge in Ek2. lia.
Qed.

(** X7. [forward] raises a [RuntimeError] (from [F.conv2d]) when the
    derived stride is not positive (as with [down <= 0] and no upsampling),
    when the padding is negative, or when the kernel is larger than the
    padded feature map. *)
Theorem forward_rejects_bad_geometry :
  forall (T : Type) (SC : Scalar T) (self : ModulatedConv2d.t T)
         (style_dim : nat) (x style : tensor T) (noise : option (tensor T))
         (g : rng T) (bn hh ww : nat) (s : Z),
    ModulatedConv2d.constructed self style_dim ->
    shape x = [bn; ModulatedConv2d.in_channels self; hh; ww] -> wf x ->
    shape style = [bn; style_dim] ->
    ModulatedConv2d.stride_of self = Ok s ->
    (s <= 0)%Z \/ (ModulatedConv2d.padding_of self < 0)%Z \/
    hh + 2 * Z.to_nat (ModulatedConv2d.padding_of self) < ModulatedConv2d.kernel_size self \/
    ww + 2 * Z.to_nat (ModulatedConv2d.padding_of self) < ModulatedConv2d.kernel_size self ->
    exists msg,
      ModulatedConv2d.forward self x style noise g = Raise (RuntimeError msg).
Proof.
  intros T SC self style_dim x style noise g bn hh ww s Hc Hx Hwf Hs Hst Hbad.
  unfold ModulatedConv2d.forward. rewrite Hx.
  rewrite modulate_value with (style_dim := style_dim) by assumption.
  cbn [bind].
  destruct (@demodulation_ok T SC self (ModulatedConv2d.modulated self style style_dim bn) bn
              (ModulatedConv2d.in_channels self)
              (ModulatedConv2d.kernel_size self) (ModulatedConv2d.kernel_size self)
              eq_refl (wf_tabulate _ _)) as (w' & -> & Hw' & Hwf').
  cbn [bind]. unfold ModulatedConv2d.grouped_conv.
  rewrite (fold_weight_ok self Hw' Hwf'). cbn [bind]. rewrite Hst. cbn [bind].
  rewrite (fold_input_ok Hx Hwf). cbn [bind].
  match goal with
  | |- context [conv2d ?a ?b ?p ?q ?r] =>
      destruct (@conv2d_rejects T SC a b p q r _ _ _ _ _ _ _ _ eq_refl eq_refl Hbad)
        as (msg & ->)
  end.
  exists msg. reflexivity.
Qed.

(** X8. A style batch whose width is not the layer's [style_dim] makes
    [forward] raise a [RuntimeError] at the modulation projection. *)
Theorem style_width_mismatch_is_rejected :
  forall (T : Type) (SC : Scalar T) (self : ModulatedConv2d.t T)
         (style_dim : nat) (x style : tensor T) (noise : option (tensor T))
         (g : rng T) (bn c hh ww m d : nat),
    ModulatedConv2d.constructed self style_dim ->
    shape x = [bn; c; hh; ww] ->
    shape style = [m; d] ->
    d <> style_dim ->
    exists msg,
      ModulatedConv2d.forward self x style noise g = Raise (RuntimeError msg).
Proof.
  intros T SC self style_dim x style noise g bn c hh ww m d Hc Hx Hs Hd.
  unfold ModulatedConv2d.forward. rewrite Hx.
  unfold ModulatedConv2d.modulate, linear.
  rewrite (ModulatedConv2d.modulation_shape Hc), Hs. cbn [rev app].
  apply Nat.eqb_neq in Hd. rewrite Hd. cbn [negb bind].
  eexists. reflexivity.
Qed.

(** X9. [ModulatedConv2d.__init__] raises [ZeroDivisionError] exactly when
    [in_channels * kernel_size ** 2] is zero.  Otherwise it returns a layer
    holding the arguments, a weight (C_out, C_in, k, k), a modulation matrix
    (C_in, style_dim) and an all-zero noise scale (1, C_out, 1, 1), and it
    has taken [C_out * C_in * k * k + C_in * style_dim] draws. *)
Theorem modulated_conv_construction :
  forall (T : Type) (SC : Scalar T) (L : Torch)
         (in_channels out_channels kernel_size style_dim : nat) (demodulate : bool)
         (up down padding : Z) (g : rng T),
    (in_channels * kernel_size ^ 2 = 0 ->
     exists msg,
       ModulatedConv2d.init in_channels out_channels kernel_size style_dim
         demodulate up down padding g = Raise (ZeroDivisionError msg)) /\
    (in_channels * kernel_size ^ 2 <> 0 ->
     exists (self : ModulatedConv2d.t T) (g' : rng T),
       ModulatedConv2d.init in_channels out_channels kernel_size style_dim
         demodulate up down padding g = Ok (self, g') /\
       ModulatedConv2d.constructed self style_dim /\
       ModulatedConv2d.in_channels self = in_channels /\
       ModulatedConv2d.out_channels self = out_channels /\
       ModulatedConv2d.kernel_size self = kernel_size /\
       ModulatedConv2d.demodulate self = demodulate /\
       ModulatedConv2d.up self = up /\
       ModulatedConv2d.down self = down /\
       ModulatedConv2d.padding self = padding /\
       data (NoiseInjection.weight (ModulatedConv2d.noise_injection self))
       = repeat s_zero out_channels /\
       tape g' = tape g /\
       pos g' = pos g + out_channels * in_channels * kernel_size * kernel_size
                + in_channels * style_dim).
Proof.
  intros T SC L in_channels out_channels kernel_size style_dim demodulate
         up down padding g.
  split.
  - intros E. unfold ModulatedConv2d.init. rewrite E. eexists. reflexivity.
  - intros E.
    destruct (ModulatedConv2d.init in_channels out_channels kernel_size style_dim
                demodulate up down padding g) as [[self g']|e] eqn:Hi.
    + exists self, g'. split; [reflexivity|].
      destruct (init_constructed _ _ _ _ _ _ _ _ _ Hi)
        as (Hc & H1 & H2 & H3 & H4 & H5 & H6 & H7).
      repeat (split; [assumption|]).
      unfold ModulatedConv2d.init in Hi.
      apply Nat.eqb_neq in E. rewrite E in Hi. cbn [randn draw] in Hi.
      injection Hi as <- <-.
      split; [cbn; f_equal; lia|]. split; [reflexivity|]. cbn. lia.
    + exfalso. unfold ModulatedConv2d.init in Hi.
      apply Nat.eqb_neq in E. rewrite E in Hi. cbn [randn draw] in Hi.
      discriminate Hi.
Qed.

(** ** NoiseInjection: drawn noise and refused noise *)

Ltac solve_in_indices_lia :=
  repeat (apply in_indices_cons; eexists _, _;
          split; [reflexivity | split; [lia|]]);
  apply in_indices_nil; reflexivity.

Lemma broadcast_dim_none (a b : nat) :
  a <> b -> a <> 1 -> b <> 1 -> broadcast_dim a b = None.
Proof.
  intros Hab Ha Hb. unfold broadcast_dim.
  apply Nat.eqb_neq in Hab, Ha, Hb. rewrite Hab, Ha, Hb. reflexivity.
Qed.

(** X10. With the noise omitted, [NoiseInjection.forward] on a feature map
    (N, C, H, W) takes the next [N * H * W] draws of the generator and adds
    draw [(b * H + i) * W + j], scaled per channel, to every channel of
    position (b, i, j); on a feature map that does not have four axes it
    raises a [ValueError]. *)
Theorem drawn_noise_is_shared_across_channels :
  forall (T : Type) (SC : Scalar T) (self : NoiseInjection.t T) (x : tensor T)
         (g : rng T),
    (forall bn c hh ww,
        shape (NoiseInjection.weight self) = [1; c; 1; 1] ->
        shape x = [bn; c; hh; ww] ->
        exists (out : tensor T) (g' : rng T),
          NoiseInjection.forward self x None g = Ok (out, g') /\
          tape g' = tape g /\ pos g' = pos g + bn * hh * ww /\
          shape out = shape x /\
          forall b ch i j, b < bn -> ch < c -> i < hh -> j < ww ->
            get out [b; ch; i; j]
            = s_add (get x [b; ch; i; j])
                    (s_mul (get (NoiseInjection.weight self) [0; ch; 0; 0])
                           (tape g (pos g + ((b * hh + i) * ww + j))))) /\
    (length (shape x) <> 4 ->
     exists msg, NoiseInjection.forward self x None g = Raise (ValueError msg)).
Proof.
  intros T SC self x g. split.
  - intros bn c hh ww Hw Hx.
    eexists _, _. split; [apply forward_without_noise; eassumption|].
    split; [reflexivity|]. split; [cbn; lia|]. split; [rewrite Hx; reflexivity|].
    intros b ch i j Hb Hc Hi Hj. rewrite get_injected by assumption.
    do 2 f_equal. unfold get, randn, draw. cbn [fst shape data].
    assert (Hlt : offset [bn; 1; hh; ww] [b; 0; i; j] < numel [bn; 1; hh; ww])
      by (apply offset_lt; solve_in_indices_lia).
    rewrite nth_map_lt with (d' := 0) by (rewrite length_seq; exact Hlt).
    rewrite seq_nth by exact Hlt. f_equal. cbn [offset numel]. lia.
  - intros Hlen. unfold NoiseInjection.forward.
    destruct (shape x) as [|a [|b [|c [|d [|e r]]]]];
      try (eexists; reflexivity).
    exfalso. apply Hlen. reflexivity.
Qed.

(** X11. Supplied noise (N, 1, H2, W2) whose height or width differs from
    that of the feature map (N, C, H, W), neither of the two being 1, is
    not broadcast: [forward] raises a [RuntimeError]. *)
Theorem noise_extent_mismatch_is_rejected :
  forall (T : Type) (SC : Scalar T) (self : NoiseInjection.t T)
         (x n : tensor T) (g : rng T) (bn c hh ww h2 w2 : nat),
    shape (NoiseInjection.weight self) = [1; c; 1; 1] ->
    shape x = [bn; c; hh; ww] ->
    shape n = [bn; 1; h2; w2] ->
    (hh <> h2 /\ hh <> 1 /\ h2 <> 1) \/ (ww <> w2 /\ ww <> 1 /\ w2 <> 1) ->
    exists msg,
      NoiseInjection.forward self x (Some n) g = Raise (RuntimeError msg).
Proof.
  intros T SC self x n g bn c hh ww h2 w2 Hw Hx Hn Hbad.
  unfold NoiseInjection.forward. cbn [bind].
  rewrite (mul_channel_scale _ _ Hw Hn). cbn [bind].
  unfold add, broadcast2, broadcast_shapes. rewrite Hx. cbn [tabulate shape].
  cbn [length Nat.max pad_shape Nat.sub repeat app broadcast_dims].
  rewrite !broadcast_dim_same.
  destruct Hbad as [(H1 & H2 & H3)|(H1 & H2 & H3)].
  - rewrite (broadcast_dim_none H1 H2 H3). cbn [bind]. eexists. reflexivity.
  - rewrite (broadcast_dim_none H1 H2 H3).
    destruct (broadcast_dim hh h2); cbn [bind]; eexists; reflexivity.
Qed.



(** ** FullyConnectedLayer: what construction leaves, and the plain layer *)

Section FullyConnectedMore.
Context {T : Type} `{Torch T}.

Lemma reset_parameters_shapes (n_out n_in : nat) (b0 : option (tensor T))
      (weight_init : string) (g g' : rng T) (w : tensor T) (b : option (tensor T)) :
  FullyConnectedLayer.reset_parameters (zeros [n_out; n_in]) b0 weight_init g
  = Ok (w, b, g') ->
  shape w = [n_out; n_in] /\
  match b0 with
  | Some b00 => exists b', b = Some b' /\ shape b' = shape b00
  | None => b = None
  end.
Proof.
  intros Hr.
  destruct (in_dec_string weight_init ["xavier"; "kaiming"; "orthogonal"]) as [Hin|Hn];
    [|rewrite reset_parameters_unsupported in Hr by assumption; discriminate].
  unfold FullyConnectedLayer.reset_parameters in Hr.
  destruct (@weight_init_cases T _ _ n_out n_in weight_init g Hin)
    as [(_ & _ & _ & Hw1)|(_ & w1 & g1 & Hw1 & Hs1)];
    rewrite Hw1 in Hr; cbn [bind] in Hr; [discriminate|].
  destruct b0 as [b00|].
  - unfold calculate_fan_in_and_fan_out in Hr. rewrite Hs1 in Hr. cbn [bind] in Hr.
    destruct (n_in * numel [] =? 0); [discriminate|].
    unfold uniform_, draw in Hr. injection Hr as <- <- _.
    split; [assumption|]. eexists. split; reflexivity.
  - injection Hr as <- <- _. split; [assumption | reflexivity].
Qed.

Lemma init_fields (in_features out_features : nat) (bias : bool)
      (activation weight_init : string) (dropout : Q)
      (batch_norm layer_norm : bool) (g g' : rng T)
      (self : FullyConnectedLayer.t T) :
  FullyConnectedLayer.init in_features out_features bias activation
    weight_init dropout batch_norm layer_norm g = Ok (self, g') ->
  FullyConnectedLayer.in_features self = in_features /\
  FullyConnectedLayer.out_features self = out_features /\
  FullyConnectedLayer.activation self = activation /\
  shape (FullyConnectedLayer.weight self) = [out_features; in_features] /\
  (if bias
   then exists b, FullyConnectedLayer.bias self = Some b /\ shape b = [out_features]
   else FullyConnectedLayer.bias self = None) /\
  FullyConnectedLayer.batch_norm self = (if batch_norm then Some out_features else None) /\
  FullyConnectedLayer.layer_norm self = (if layer_norm then Some out_features else None) /\
  FullyConnectedLayer.dropout self = (if Qle_bool dropout 0 then None else Some dropout) /\
  FullyConnectedLayer.get_activation_fn activation
  = Ok (FullyConnectedLayer.act_fn self).
Proof.
  unfold FullyConnectedLayer.init. intros Hi.
  destruct (Qle_bool dropout 0) eqn:E0;
    [|destruct (Qle_bool dropout 1); [|discriminate]]; cbn [bind] in Hi.
  all: destruct (FullyConnectedLayer.reset_parameters
                   (zeros [out_features; in_features])
                   (if bias then Some (zeros [out_features]) else None)
                   weight_init g) as [[[w b] g1]|e] eqn:Hr; [|discriminate];
    cbn [bind] in Hi;
    destruct (FullyConnectedLayer.get_activation_fn activation) as [f|e] eqn:Hf;
    [|discriminate]; cbn [bind] in Hi; injection Hi as <- _;
    apply reset_parameters_shapes in Hr as [Hw Hb]; cbn;
    repeat (split; [reflexivity || assumption|]).
  all: split; [|repeat split; reflexivity].
  all: destruct bias; [destruct Hb as (b' & -> & Hsb); eexists; split;
                       [reflexivity | exact Hsb] | assumption].
Qed.

(** A row of biases (out) added to a batch of rows (N, out). *)
Lemma add_row_bias (y b : tensor T) (m n_out : nat) :
  shape y = [m; n_out] -> shape b = [n_out] ->
  add y b
  = Ok (tabulate [m; n_out]
          (fun idx => match idx with
                      | [r; o] => s_add (get y [r; o]) (get b [o])
                      | _ => s_zero
                      end)).
Proof.
  intros Hy Hb. unfold add, broadcast2, broadcast_shapes. rewrite Hy, Hb.
  cbn [length Nat.max pad_shape Nat.sub repeat app broadcast_dims].
  rewrite broadcast_dim_1_r, broadcast_dim_same. cbn [bind length].
  f_equal. apply tabulate_ext. intros idx Hin. split_index Hin.
  unfold bget, get. rewrite Hy, Hb.
  cbn [length pad_shape Nat.sub repeat app expand_index offset numel Nat.eqb].
  rewrite !expand_lt by assumption. reflexivity.
Qed.

Lemma plain_forward (self : FullyConnectedLayer.t T) (x : tensor T) (g : rng T)
      (m n_in n_out : nat) :
  shape (FullyConnectedLayer.weight self) = [n_out; n_in] ->
  (forall b, FullyConnectedLayer.bias self = Some b -> shape b = [n_out]) ->
  FullyConnectedLayer.batch_norm self = None ->
  FullyConnectedLayer.layer_norm self = None ->
  FullyConnectedLayer.dropout self = None ->
  FullyConnectedLayer.get_activation_fn "linear"
  = Ok (FullyConnectedLayer.act_fn self) ->
  shape x = [m; n_in] ->
  exists y : tensor T,
    FullyConnectedLayer.forward self x g = Ok (y, g) /\
    shape y = [m; n_out] /\
    forall r o, r < m -> o < n_out ->
      get y [r; o]
      = let dot := sum_list
                     (map (fun j => s_mul (get x [r; j])
                                          (get (FullyConnectedLayer.weight self) [o; j]))
                          (seq 0 n_in)) in
        match FullyConnectedLayer.bias self with
        | Some b => s_add dot (get b [o])
        | None => dot
        end.
Proof.
  intros Hw Hb Hbn Hln Hd Hact Hx.
  assert (Hf : FullyConnectedLayer.act_fn self = fun t => Ok t).
  { cbn in Hact. injection Hact as <-. reflexivity. }
  assert (Hdot : forall r o, r < m -> o < n_out ->
             get (mkTensor [m; n_out]
                    (flat_map
                       (fun r => map (fun o =>
                          sum_list
                            (map (fun j => s_mul (nth (r * n_in + j) (data x) s_zero)
                                                 (nth (o * n_in + j)
                                                      (data (FullyConnectedLayer.weight self)) s_zero))
                                 (seq 0 n_in)))
                          (seq 0 n_out))
                       (seq 0 m))) [r; o]
             = sum_list
                 (map (fun j => s_mul (get x [r; j])
                                      (get (FullyConnectedLayer.weight self) [o; j]))
                      (seq 0 n_in))).
  { intros r o Hr Ho. unfold get at 1. cbn [shape data offset numel].
    replace (r * (n_out * 1) + (o * 1 + 0)) with (r * n_out + o) by lia.
    rewrite (nth_flat_map_seq
               (fun r o =>
                  sum_list
                    (map (fun j => s_mul (nth (r * n_in + j) (data x) s_zero)
                                         (nth (o * n_in + j)
                                              (data (FullyConnectedLayer.weight self)) s_zero))
                         (seq 0 n_in)))) by assumption.
    f_equal. apply map_ext. intros j. unfold get. rewrite Hx, Hw.
    cbn [offset numel]. f_equal; f_equal; lia. }
  unfold FullyConnectedLayer.forward. rewrite Hbn, Hln, Hd, Hf.
  destruct (FullyConnectedLayer.bias self) as [b|] eqn:Ebias.
  - unfold linear. rewrite Hw, Hx. cbn [rev app]. rewrite Nat.eqb_refl.
    cbn [negb numel]. rewrite Nat.mul_1_r.
    erewrite add_row_bias; [|reflexivity|apply Hb; reflexivity].
    cbn [bind]. eexists. split; [reflexivity|]. split; [reflexivity|].
    intros r o Hr Ho. rewrite get_tabulate by solve_in_indices.
    cbv zeta. f_equal. apply Hdot; assumption.
  - rewrite (linear_no_bias _ _ Hw Hx). cbn [bind].
    eexists. split; [reflexivity|]. split; [reflexivity|].
    intros r o Hr Ho. cbv zeta. apply Hdot; assumption.
Qed.

End FullyConnectedMore.

Lemma affine_layer_is_built :
  FullyConnectedLayer.init 2 1 true "linear" "xavier" 0 false false Examples.ones_tape
  = Ok (Examples.affine_layer, mkRng (fun _ => 1%R) 3).
Proof. reflexivity. Qed.

(** X12. A layer built with the linear activation, no normalisation and a
    dropout rate that is not positive computes the affine map: a batch
    (N, in_features) gives (N, out_features) with entry (r, o) equal to
    [sum_j x[r, j] * weight[o, j]] plus [bias[o]] when there is a bias, and
    the generator is left as it was; a batch of any other width raises a
    [RuntimeError]. *)
Theorem linear_layer_is_affine :
  forall (T : Type) (SC : Scalar T) (L : Torch)
         (in_features out_features : nat) (bias : bool) (weight_init : string)
         (dropout : Q) (g g' gx : rng T) (self : FullyConnectedLayer.t T)
         (x : tensor T) (m d : nat),
    FullyConnectedLayer.init in_features out_features bias "linear" weight_init
      dropout false false g = Ok (self, g') ->
    Qle_bool dropout 0 = true ->
    shape x = [m; d] ->
    (d = in_features ->
     exists y : tensor T,
       FullyConnectedLayer.forward self x gx = Ok (y, gx) /\
       shape y = [m; out_features] /\
       forall r o, r < m -> o < out_features ->
         get y [r; o]
         = let dot := sum_list
                        (map (fun j => s_mul (get x [r; j])
                                             (get (FullyConnectedLayer.weight self) [o; j]))
                             (seq 0 in_features)) in
           match FullyConnectedLayer.bias self with
           | Some b => s_add dot (get b [o])
           | None => dot
           end) /\
    (d <> in_features ->
     exists msg, FullyConnectedLayer.forward self x gx = Raise (RuntimeError msg)).
Proof.
  intros T SC L in_features out_features bias weight_init dropout g g' gx self
         x m d Hi Hd Hx.
  destruct (init_fields _ _ _ _ _ _ _ _ _ Hi)
    as (_ & _ & _ & Hw & Hb & Hbn & Hln & Hdr & Hact).
  rewrite Hd in Hdr. cbn in Hbn, Hln. split.
  - intros ->. apply plain_forward; try assumption.
    intros b Eb. destruct bias.
    + destruct Hb as (b' & Eb' & Hsb). congruence.
    + congruence.
  - intros Hne. unfold FullyConnectedLayer.forward, linear.
    rewrite Hw, Hx. cbn [rev app]. apply Nat.eqb_neq in Hne. rewrite Hne.
    cbn [negb bind]. eexists. reflexivity.
Qed.

(** X13. With a non-zero [in_features], a dropout rate of at most 1 and
    supported names, [FullyConnectedLayer.__init__] returns a layer that
    holds its arguments: a weight (out, in), a bias (out) exactly when
    [bias] is set, the normalisation modules exactly when asked for, a
    dropout module exactly when the rate is positive, and the activation
    function that [get_activation_fn] gives for the name. *)
Theorem construction_leaves_configured_layer :
  forall (T : Type) (SC : Scalar T) (L : Torch)
         (in_features out_features : nat) (bias : bool)
         (activation weight_init : string) (dropout : Q)
         (batch_norm layer_norm : bool) (g : rng T),
    in_features <> 0 -> Qle_bool dropout 1 = true ->
    In activation ["linear"; "relu"; "leaky_relu"; "elu"; "gelu"; "swish"] ->
    In weight_init ["xavier"; "kaiming"; "orthogonal"] ->
    exists (self : FullyConnectedLayer.t T) (g' : rng T),
      FullyConnectedLayer.init in_features out_features bias activation
        weight_init dropout batch_norm layer_norm g = Ok (self, g') /\
      FullyConnectedLayer.in_features self = in_features /\
      FullyConnectedLayer.out_features self = out_features /\
      FullyConnectedLayer.activation self = activation /\
      shape (FullyConnectedLayer.weight self) = [out_features; in_features] /\
      (if bias
       then exists b, FullyConnectedLayer.bias self = Some b /\ shape b = [out_features]
       else FullyConnectedLayer.bias self = None) /\
      FullyConnectedLayer.batch_norm self = (if batch_norm then Some out_features else None) /\
      FullyConnectedLayer.layer_norm self = (if layer_norm then Some out_features else None) /\
      FullyConnectedLayer.dropout self = (if Qle_bool dropout 0 then None else Some dropout) /\
      FullyConnectedLayer.get_activation_fn activation
      = Ok (FullyConnectedLayer.act_fn self).
Proof.
  intros T SC L in_features out_features bias activation weight_init dropout
         batch_norm layer_norm g Hnz Hd Ha Hw.
  destruct (@init_supported T SC L in_features out_features bias activation
              weight_init dropout batch_norm layer_norm g Hnz Hd Ha Hw)
    as ([self g'] & Hi).
  exists self, g'. split; [assumption|]. apply (init_fields _ _ _ _ _ _ _ _ _ Hi).
Qed.

(* ================================================================= *)
(** ** MappingNetwork: the layer stack and the label embedding *)

Section MappingNetworkFacts.
Context {T : Type} `{Torch T}.

Lemma mapping_layer_init (n_in w_dim : nat) (dropout : Q) (g : rng T) :
  n_in <> 0 -> Qle_bool dropout 1 = true ->
  exists (layer : FullyConnectedLayer.t T) (g' : rng T),
    FullyConnectedLayer.init n_in w_dim true "leaky_relu" "kaiming" dropout
      true false g = Ok (layer, g') /\
    FullyConnectedLayer.in_features layer = n_in /\
    FullyConnectedLayer.out_features layer = w_dim /\
    FullyConnectedLayer.activation layer = "leaky_relu" /\
    shape (FullyConnectedLayer.weight layer) = [w_dim; n_in] /\
    FullyConnectedLayer.batch_norm layer = Some w_dim /\
    FullyConnectedLayer.layer_norm layer = None /\
    FullyConnectedLayer.dropout layer
    = (if Qle_bool dropout 0 then None else Some dropout).
Proof.
  intros Hnz Hd.
  destruct (@init_supported T _ _ n_in w_dim true "leaky_relu" "kaiming" dropout
              true false g Hnz Hd) as ([layer g'] & Hi);
    [simpl; tauto | simpl; tauto |].
  exists layer, g'. split; [assumption|].
  destruct (init_fields _ _ _ _ _ _ _ _ _ Hi)
    as (H1 & H2 & H3 & H4 & _ & H6 & H7 & H8 & _).
  repeat (split; [assumption|]). assumption.
Qed.

Lemma build_layers_ok (z_dim w_dim : nat) (dropout : Q) (n a : nat) (g : rng T) :
  z_dim <> 0 -> w_dim <> 0 -> Qle_bool dropout 1 = true ->
  exists (layers : list (FullyConnectedLayer.t T)) (g' : rng T),
    MappingNetwork.build_layers z_dim w_dim dropout (seq a n) g = Ok (layers, g') /\
    length layers = n /\
    forall i layer, nth_error layers i = Some layer ->
      FullyConnectedLayer.in_features layer = (if a + i =? 0 then z_dim else w_dim) /\
      FullyConnectedLayer.out_features layer = w_dim /\
      FullyConnectedLayer.activation layer = "leaky_relu" /\
      shape (FullyConnectedLayer.weight layer)
      = [w_dim; if a + i =? 0 then z_dim else w_dim] /\
      FullyConnectedLayer.batch_norm layer = Some w_dim /\
      FullyConnectedLayer.layer_norm layer = None /\
      FullyConnectedLayer.dropout layer
      = (if Qle_bool dropout 0 then None else Some dropout).
Proof.
  intros Hz Hw Hd. revert a g. induction n as [|n IH]; intros a g.
  - exists [], g. split; [reflexivity|]. split; [reflexivity|].
    intros i layer Hi. destruct i; discriminate Hi.
  - cbn [seq MappingNetwork.build_layers].
    destruct (@mapping_layer_init (if a =? 0 then z_dim else w_dim) w_dim dropout g)
      as (layer & g1 & -> & Hl); [destruct (a =? 0); assumption | assumption |].
    cbn [bind].
    destruct (IH (S a) g1) as (layers & g2 & -> & Hlen & Hall). cbn [bind].
    exists (layer :: layers), g2. split; [reflexivity|].
    split; [cbn; rewrite Hlen; reflexivity|].
    intros i l Hi. destruct i as [|i].
    + cbn in Hi. injection Hi as <-. rewrite Nat.add_0_r. exact Hl.
    + cbn in Hi. replace (a + S i) with (S a + i) by lia. apply Hall. assumption.
Qed.

Lemma embedding_rows (table : tensor T) (labels : list nat) (num dim : nat) :
  shape table = [num; dim] ->
  Forall (fun l => l < num) labels ->
  MappingNetwork.embedding table labels
  = Ok (mkTensor [length labels; dim]
          (concat (map (fun l => firstn dim (skipn (l * dim) (data table))) labels))).
Proof.
  intros Ht Hl. unfold MappingNetwork.embedding. rewrite Ht.
  rewrite mapM_ok with (h := fun l => firstn dim (skipn (l * dim) (data table))).
  - reflexivity.
  - intros l Hin. rewrite Forall_forall in Hl. specialize (Hl l Hin).
    apply Nat.ltb_lt in Hl. rewrite Hl. reflexivity.
Qed.

Lemma embedding_out_of_range (table : tensor T) (labels : list nat) (num dim : nat) :
  shape table = [num; dim] ->
  Exists (fun l => num <= l) labels ->
  MappingNetwork.embedding table labels
  = Raise (IndexError "index out of range in self").
Proof.
  intros Ht Hl. unfold MappingNetwork.embedding. rewrite Ht.
  induction Hl as [l labels Hl | l labels Hl IH].
  - cbn [mapM]. apply Nat.ltb_ge in Hl. rewrite Hl. reflexivity.
  - cbn [mapM]. destruct (l <? num); [|reflexivity]. cbn [bind].
    destruct (mapM _ labels) as [rows|e]; [discriminate IH|].
    cbn [bind] in *. exact IH.
Qed.

Lemma nth_flat_map_uniform_in {A B : Type} (f : A -> list B) (m : nat)
      (l : list A) (i j : nat) (a : A) (d : B) :
  (forall x, In x l -> length (f x) = m) -> i < length l -> j < m ->
  nth (i * m + j) (flat_map f l) d = nth j (f (nth i l a)) d.
Proof.
  revert i. induction l as [|x l IH]; intros i Hf Hi Hj; simpl in *.
  - lia.
  - destruct i as [|i].
    + simpl. rewrite app_nth1; [reflexivity | rewrite Hf by (left; reflexivity); assumption].
    + rewrite app_nth2; rewrite Hf by (left; reflexivity); [|simpl; lia].
      replace (S i * m + j - m) with (i * m + j) by (simpl; lia).
      apply IH; [intros y Hy; apply Hf; right; assumption | lia | assumption].
Qed.

End MappingNetworkFacts.

(** X14. With non-zero [z_dim] and [w_dim] and a dropout rate of at most
    1, [MappingNetwork.__init__] returns a label embedding
    (label_dim, z_dim) and a stack of exactly [num_layers] layers (none for
    [num_layers <= 0]): the first maps z_dim to w_dim, every later one w_dim
    to w_dim, and each has the leaky_relu activation, batch normalisation
    on, layer normalisation off and dropout exactly when the rate is
    positive. *)
Theorem mapping_network_layer_stack :
  forall (T : Type) (SC : Scalar T) (L : Torch) (z_dim w_dim : nat)
         (num_layers : Z) (label_dim : nat) (dropout : Q) (g : rng T),
    z_dim <> 0 -> w_dim <> 0 -> Qle_bool dropout 1 = true ->
    exists (self : MappingNetwork.t T) (g' : rng T),
      MappingNetwork.init z_dim w_dim num_layers label_dim dropout g = Ok (self, g') /\
      shape (MappingNetwork.label_embedding self) = [label_dim; z_dim] /\
      wf (MappingNetwork.label_embedding self) /\
      length (MappingNetwork.net self) = Z.to_nat num_layers /\
      forall i layer, nth_error (MappingNetwork.net self) i = Some layer ->
        FullyConnectedLayer.in_features layer = (if i =? 0 then z_dim else w_dim) /\
        FullyConnectedLayer.out_features layer = w_dim /\
        FullyConnectedLayer.activation layer = "leaky_relu" /\
        shape (FullyConnectedLayer.weight layer)
        = [w_dim; if i =? 0 then z_dim else w_dim] /\
        FullyConnectedLayer.batch_norm layer = Some w_dim /\
        FullyConnectedLayer.layer_norm layer = None /\
        FullyConnectedLayer.dropout layer
        = (if Qle_bool dropout 0 then None else Some dropout).
Proof.
  intros T SC L z_dim w_dim num_layers label_dim dropout g Hz Hw Hd.
  unfold MappingNetwork.init. cbn [randn draw].
  match goal with
  | |- context [MappingNetwork.build_layers _ _ _ _ ?g1] =>
      destruct (@build_layers_ok T SC L z_dim w_dim dropout (Z.to_nat num_layers) 0 g1
                  Hz Hw Hd) as (layers & g2 & -> & Hlen & Hall)
  end.
  cbn [bind]. eexists _, _. split; [reflexivity|].
  cbn [MappingNetwork.label_embedding MappingNetwork.net].
  split; [reflexivity|]. split.
  - unfold wf. cbn [data shape]. rewrite length_map, length_seq. reflexivity.
  - split; [assumption|]. intros i layer Hi. apply (Hall i layer Hi).
Qed.

(** X15. With [z_dim = 0] and at least one layer, construction raises a
    [ZeroDivisionError]: the first layer has a bias and a fan-in of zero
    (line 77). *)
Theorem zero_latent_width_is_rejected :
  forall (T : Type) (SC : Scalar T) (L : Torch) (w_dim : nat)
         (num_layers : Z) (label_dim : nat) (dropout : Q) (g : rng T),
    (1 <= num_layers)%Z -> Qle_bool dropout 1 = true ->
    exists msg,
      MappingNetwork.init 0 w_dim num_layers label_dim dropout g
      = Raise (ZeroDivisionError msg).
Proof.
  intros T SC L w_dim num_layers label_dim dropout g Hn Hd.
  unfold MappingNetwork.init. cbn [randn draw].
  destruct (Z.to_nat num_layers) as [|n] eqn:En; [lia|].
  cbn [seq MappingNetwork.build_layers Nat.eqb].
  unfold FullyConnectedLayer.init. rewrite Hd.
  destruct (Qle_bool dropout 0); cbn [bind].
  all: match goal with
       | |- context [FullyConnectedLayer.reset_parameters ?w ?b ?wi ?g0] =>
           destruct (@reset_parameters_supported T SC L w_dim 0 b wi g0)
             as [(_ & _ & ->)|([Hz|(Hb & _)] & _)];
           [simpl; tauto | | contradiction Hz; reflexivity | discriminate Hb]
       end.
  all: cbn [bind]; eexists; reflexivity.
Qed.

(** X16. For labels that are all below [label_dim], the label embedding
    returns a tensor (N, z_dim) whose row [n] is row [labels[n]] of the
    table. *)
Theorem embedding_looks_up_rows :
  forall (T : Type) (SC : Scalar T) (table : tensor T) (labels : list nat)
         (num dim : nat),
    shape table = [num; dim] -> wf table ->
    Forall (fun l => l < num) labels ->
    exists t : tensor T,
      MappingNetwork.embedding table labels = Ok t /\
      shape t = [length labels; dim] /\
      forall n j, n < length labels -> j < dim ->
        get t [n; j] = get table [nth n labels 0; j].
Proof.
  intros T SC table labels num dim Ht Hwf Hl.
  eexists. split; [exact (embedding_rows table Ht Hl)|].
  split; [reflexivity|].
  intros n j Hn Hj. unfold get. rewrite Ht. cbn [shape data offset numel].
  rewrite <- flat_map_concat_map.
  replace (n * (dim * 1) + (j * 1 + 0)) with (n * dim + j) by lia.
  assert (Hrow : forall l, In l labels ->
             length (firstn dim (skipn (l * dim) (data table))) = dim).
  { intros l Hin. rewrite Forall_forall in Hl. specialize (Hl l Hin).
    rewrite length_firstn, length_skipn, Hwf, Ht. cbn [numel]. nia. }
  rewrite nth_flat_map_uniform_in with (m := dim) (a := 0);
    [|exact Hrow|exact Hn|exact Hj].
  rewrite nth_firstn. apply Nat.ltb_lt in Hj. rewrite Hj.
  rewrite nth_skipn. f_equal. lia.
Qed.

(** X17. A label that is not below [label_dim] makes
    [MappingNetwork.forward] raise an [IndexError], whatever the latent
    batch and the layers. *)
Theorem label_out_of_range_is_rejected :
  forall (T : Type) (SC : Scalar T) (L : Torch) (self : MappingNetwork.t T)
         (z : tensor T) (labels : list nat) (g : rng T) (label_dim z_dim : nat),
    shape (MappingNetwork.label_embedding self) = [label_dim; z_dim] ->
    Exists (fun l => label_dim <= l) labels ->
    exists msg, MappingNetwork.forward self z labels g = Raise (IndexError msg).
Proof.
  intros T SC L self z labels g label_dim z_dim Ht Hl.
  unfold MappingNetwork.forward.
  rewrite embedding_out_of_range with (num := label_dim) (dim := z_dim) by assumption.
  cbn [bind]. eexists. reflexivity.
Qed.

(** X18. Line 157 adds the latent batch and the embedded labels: when the
    latent batch (M, z_dim) and the N labels differ in count, neither
    count being 1, [forward] raises a [RuntimeError]. *)
Theorem latent_label_count_mismatch_is_rejected :
  forall (T : Type) (SC : Scalar T) (L : Torch) (self : MappingNetwork.t T)
         (z : tensor T) (labels : list nat) (g : rng T) (label_dim z_dim m : nat),
    shape (MappingNetwork.label_embedding self) = [label_dim; z_dim] ->
    Forall (fun l => l < label_dim) labels ->
    shape z = [m; z_dim] ->
    m <> length labels -> m <> 1 -> length labels <> 1 ->
    exists msg, MappingNetwork.forward self z labels g = Raise (RuntimeError msg).
Proof.
  intros T SC L self z labels g label_dim z_dim m Ht Hl Hz Hm Hm1 Hl1.
  unfold MappingNetwork.forward.
  rewrite embedding_rows with (num := label_dim) (dim := z_dim) by assumption.
  cbn [bind]. unfold add, broadcast2, broadcast_shapes. rewrite Hz.
  cbn [shape length Nat.max pad_shape Nat.sub repeat app broadcast_dims].
  rewrite (broadcast_dim_none Hm Hm1 Hl1). cbn [bind]. eexists. reflexivity.
Qed.

(* ================================================================= *)
(** ** The further properties at concrete inputs *)

Lemma modulated_kernel_entries_witness :
  exists w : tensor R,
    ModulatedConv2d.modulate Examples.unit_layer 1 1 Examples.unit_style = Ok w /\
    shape w = [1; 1; 1; 1; 1].
Proof.
  destruct (@modulated_kernel_entries R R_Scalar Examples.unit_layer
              Examples.unit_style 1 1) as (w & Hm & Hs & _).
  - constructor; try reflexivity. simpl. lia.
  - reflexivity.
  - exists w. split; assumption.
Defined.

Lemma demodulation_scales_each_slice_witness :
  exists w' : tensor R,
    ModulatedConv2d.demodulation Examples.unit_layer 2 Examples.pair_kernels = Ok w' /\
    shape w' = [2; 1; 1; 1; 1].
Proof.
  destruct (@demodulation_scales_each_slice R R_Scalar Examples.unit_layer
              Examples.pair_kernels 2 1 1 1) as (w' & Hd & Hs & _).
  - reflexivity.
  - reflexivity.
  - exists w'. split; assumption.
Defined.

Lemma demodulated_energy_below_one_witness :
  exists w' : tensor R,
    ModulatedConv2d.demodulation Examples.unit_layer 2 Examples.pair_kernels = Ok w' /\
    forall n o, n < 2 -> o < 1 -> (0 <= ModulatedConv2d.energy w' n o < 1)%R.
Proof.
  refine (@demodulated_energy_below_one Examples.unit_layer Examples.pair_kernels
            2 1 1 1 _ _ _).
  - reflexivity.
  - reflexivity.
  - reflexivity.
Defined.


Lemma default_padding_output_extent_witness :
  exists (out : tensor R) (g' : rng R),
    ModulatedConv2d.forward Examples.unit_layer Examples.row_input
      Examples.unit_style None Examples.ones_tape = Ok (out, g') /\
    shape out = [1; 1; 1; 2].
Proof.
  destruct (@default_padding_output_extent R R_Scalar Examples.unit_layer 1
              Examples.row_input Examples.unit_style Examples.ones_tape
              1 1 2 0) as (out & g' & Hf & Hs).
  - constructor; try reflexivity. simpl. lia.
  - reflexivity.
  - reflexivity.
  - discriminate.
  - reflexivity.
  - reflexivity.
  - reflexivity.
  - reflexivity.
  - discriminate.
  - discriminate.
  - discriminate.
  - discriminate.
  - exists out, g'. split; [assumption|]. rewrite Hs. reflexivity.
Defined.

Lemma stride_of_values_witness :
  ModulatedConv2d.stride_of Examples.upsampling_layer = Ok 2%Z.
Proof.
  apply (proj1 (proj2 (@stride_of_values R Examples.upsampling_layer))).
  simpl. lia.
Defined.

Lemma forward_rejects_bad_geometry_witness :
  exists msg,
    ModulatedConv2d.forward Examples.zero_down_layer Examples.row_input
      Examples.unit_style None Examples.ones_tape = Raise (RuntimeError msg).
Proof.
  refine (@forward_rejects_bad_geometry R R_Scalar Examples.zero_down_layer 1
            Examples.row_input Examples.unit_style None Examples.ones_tape
            1 1 2 0%Z _ _ _ _ _ _).
  - constructor; try reflexivity. simpl. lia.
  - reflexivity.
  - reflexivity.
  - reflexivity.
  - reflexivity.
  - left. lia.
Defined.

Lemma style_width_mismatch_is_rejected_witness :
  exists msg,
    ModulatedConv2d.forward Examples.unit_layer Examples.row_input
      Examples.one_row None Examples.ones_tape = Raise (RuntimeError msg).
Proof.
  refine (@style_width_mismatch_is_rejected R R_Scalar Examples.unit_layer 1
            Examples.row_input Examples.one_row None Examples.ones_tape
            1 1 1 2 1 2 _ _ _ _).
  - constructor; try reflexivity. simpl. lia.
  - reflexivity.
  - reflexivity.
  - discriminate.
Defined.

Lemma modulated_conv_construction_witness :
  exists (self : ModulatedConv2d.t R) (g' : rng R),
    ModulatedConv2d.init 1 1 1 1 true 1 1 0 Examples.ones_tape = Ok (self, g') /\
    ModulatedConv2d.constructed self 1.
Proof.
  destruct (proj2 (@modulated_conv_construction R R_Scalar inert_Torch
                     1 1 1 1 true 1%Z 1%Z 0%Z Examples.ones_tape))
    as (self & g' & Hi & Hc & _).
  - simpl. lia.
  - exists self, g'. split; assumption.
Defined.

Lemma drawn_noise_is_shared_across_channels_witness :
  exists (out : tensor R) (g' : rng R),
    NoiseInjection.forward Examples.noise_layer Examples.row_input None
      Examples.ones_tape = Ok (out, g') /\
    pos g' = 2.
Proof.
  destruct (proj1 (@drawn_noise_is_shared_across_channels R R_Scalar
                     Examples.noise_layer Examples.row_input Examples.ones_tape)
                  1 1 1 2) as (out & g' & Hf & _ & Hp & _).
  - reflexivity.
  - reflexivity.
  - exists out, g'. split; [assumption|]. rewrite Hp. reflexivity.
Defined.

Lemma noise_extent_mismatch_is_rejected_witness :
  exists msg,
    NoiseInjection.forward Examples.noise_layer (zeros [1; 1; 2; 2])
      (Some (zeros [1; 1; 3; 2])) Examples.ones_tape = Raise (RuntimeError msg).
Proof.
  refine (@noise_extent_mismatch_is_rejected R R_Scalar Examples.noise_layer
            (zeros [1; 1; 2; 2]) (zeros [1; 1; 3; 2]) Examples.ones_tape
            1 1 2 2 3 2 _ _ _ _).
  - reflexivity.
  - reflexivity.
  - reflexivity.
  - left. repeat split; discriminate.
Defined.

Lemma linear_layer_is_affine_witness :
  exists y : tensor R,
    FullyConnectedLayer.forward Examples.affine_layer Examples.one_row
      Examples.ones_tape = Ok (y, Examples.ones_tape) /\
    shape y = [1; 1].
Proof.
  destruct (proj1 (@linear_layer_is_affine R R_Scalar inert_Torch 2 1 true "xavier" 0
                     Examples.ones_tape (mkRng (fun _ => 1%R) 3) Examples.ones_tape
                     Examples.affine_layer Examples.one_row 1 2
                     eq_refl eq_refl eq_refl) eq_refl)
    as (y & Hf & Hs & _).
  exists y. split; assumption.
Defined.

Lemma construction_leaves_configured_layer_witness :
  exists (self : FullyConnectedLayer.t R) (g' : rng R),
    FullyConnectedLayer.init 2 1 true "linear" "xavier" 0 false false
      Examples.ones_tape = Ok (self, g') /\
    shape (FullyConnectedLayer.weight self) = [1; 2].
Proof.
  destruct (@construction_leaves_configured_layer R R_Scalar inert_Torch
              2 1 true "linear" "xavier" 0 false false Examples.ones_tape)
    as (self & g' & Hi & _ & _ & _ & Hw & _).
  - discriminate.
  - reflexivity.
  - simpl. tauto.
  - simpl. tauto.
  - exists self, g'. split; assumption.
Defined.

Lemma mapping_network_layer_stack_witness :
  exists (self : MappingNetwork.t R) (g' : rng R),
    MappingNetwork.init 8 16 2 4 (1 # 10) Examples.ones_tape = Ok (self, g') /\
    length (MappingNetwork.net self) = 2.
Proof.
  destruct (@mapping_network_layer_stack R R_Scalar inert_Torch 8 16 2%Z 4 (1 # 10)
              Examples.ones_tape) as (self & g' & Hi & _ & _ & Hlen & _).
  - discriminate.
  - discriminate.
  - reflexivity.
  - exists self, g'. split; assumption.
Defined.

Lemma zero_latent_width_is_rejected_witness :
  exists msg,
    MappingNetwork.init (T := R) 0 16 2 4 (1 # 10) Examples.ones_tape
    = Raise (ZeroDivisionError msg).
Proof.
  refine (@zero_latent_width_is_rejected R R_Scalar inert_Torch 16 2%Z 4 (1 # 10)
            Examples.ones_tape _ _).
  - lia.
  - reflexivity.
Defined.

Lemma embedding_looks_up_rows_witness :
  exists t : tensor R,
    MappingNetwork.embedding Examples.label_table [1; 0] = Ok t /\
    shape t = [2; 2].
Proof.
  destruct (@embedding_looks_up_rows R R_Scalar Examples.label_table [1; 0] 2 2)
    as (t & He & Hs & _).
  - reflexivity.
  - reflexivity.
  - repeat constructor.
  - exists t. split; assumption.
Defined.

Lemma label_out_of_range_is_rejected_witness :
  exists msg,
    MappingNetwork.forward Examples.table_network Examples.latent_pair [0; 2]
      Examples.ones_tape = Raise (IndexError msg).
Proof.
  refine (@label_out_of_range_is_rejected R R_Scalar inert_Torch
            Examples.table_network Examples.latent_pair [0; 2] Examples.ones_tape
            2 2 _ _).
  - reflexivity.
  - right. left. lia.
Defined.

Lemma latent_label_count_mismatch_is_rejected_witness :
  exists msg,
    MappingNetwork.forward Examples.table_network Examples.latent_pair [0; 1; 0]
      Examples.ones_tape = Raise (RuntimeError msg).
Proof.
  refine (@latent_label_count_mismatch_is_rejected R R_Scalar inert_Torch
            Examples.table_network Examples.latent_pair [0; 1; 0] Examples.ones_tape
            2 2 2 _ _ _ _ _ _).
  - reflexivity.
  - repeat constructor.
  - reflexivity.
  - discriminate.
  - discriminate.
  - discriminate.
Defined.

